(** * Reconciliation and consensus engine of the credit-card analyzer

    A shallow embedding of the duplicate-detection and import functions of
    [app.py]: the two SQLite tables, [find_duplicate_statement],
    [find_similar_statement], [find_overlapping_transactions], the per-page
    majority vote of [process_uploaded_file], [save_transactions] and the
    save button of [page_import].

    Conventions of the embedding.
    - Python [float] and SQLite [REAL] amounts are rationals ([Q]); the
      comparisons of the source ([== 0], [> 0], [<= tolerance], [< 1.0])
      become [Qeq_bool], [Qltb], [Qle_bool].
    - Python [str] and SQLite [TEXT] are [string]; a column or a bound
      parameter that can hold [None]/[NULL] is an [option]. The characters
      of a [string] are 8-bit units: the dates and fingerprints the code
      slices, splits and strips are ASCII.
    - A table is the list of its rows in rowid order; the AUTOINCREMENT
      counters of [sqlite_sequence] are part of the database. *)

From Stdlib Require Import List ZArith QArith Qabs Qminmax Lqa Lia Bool Arith.
From Stdlib Require Import Strings.String Strings.Ascii DecimalString.
Import ListNotations.

Local Open Scope Q_scope.

(** ** Rational helpers *)

Definition Qltb (x y : Q) : bool := negb (Qle_bool y x).

(** ** The database *)

Module Db.

(** A row of [statements]. [cutoff_day] and [file_hash] are written as
    [None] by [save_transactions] when unknown. *)
Record stmt_row := {
  s_id          : Z;
  s_filename    : string;
  s_bank        : string;
  s_period      : string;
  s_imported_at : string;
  s_tx_count    : Z;
  s_cutoff_day  : option Z;
  s_file_hash   : option string
}.

(** A row of [transactions]. The text columns filled from [t.get(...)] can
    hold [NULL]. *)
Record tx_row := {
  t_id           : Z;
  t_statement_id : Z;
  t_trans_date   : option string;
  t_posting_date : option string;
  t_description  : option string;
  t_amount       : Q;
  t_category     : option string;
  t_subcategory  : option string;
  t_bank         : string
}.

Record database := {
  statements       : list stmt_row;
  transactions     : list tx_row;
  seq_statements   : Z;
  seq_transactions : Z
}.

Definition empty : database :=
  {| statements := []; transactions := [];
     seq_statements := 0%Z; seq_transactions := 0%Z |}.

(** SQL [=] on a nullable text column against a bound parameter: [NULL] on
    either side never compares equal. *)
Definition sql_text_eq (col param : option string) : bool :=
  match col, param with
  | Some a, Some b => String.eqb a b
  | _, _ => false
  end.

End Db.
Import Db.

(** ** Statement matcher: [find_similar_statement] *)

Module Similar.

(** [COALESCE(SUM(CASE WHEN t.amount > 0 THEN t.amount ELSE 0 END), 0)] over
    the transactions joined to statement [sid]. *)
Definition positive_part (a : Q) : Q := if Qltb 0 a then a else 0.

Definition joined (db : database) (sid : Z) : list tx_row :=
  filter (fun t => Z.eqb (t_statement_id t) sid) (transactions db).

Definition stored_total (db : database) (sid : Z) : Q :=
  fold_right (fun t acc => positive_part (t_amount t) + acc) 0 (joined db sid).

(** One row of the [SELECT]: the statement columns and its total. [id] is
    the primary key, so each [GROUP BY s.id] group is one statement. *)
Record sim_row := {
  r_id           : Z;
  r_filename     : string;
  r_bank         : string;
  r_period       : string;
  r_imported_at  : string;
  r_total_amount : Q
}.

Definition select_row (db : database) (s : stmt_row) : sim_row :=
  {| r_id := s_id s; r_filename := s_filename s; r_bank := s_bank s;
     r_period := s_period s; r_imported_at := s_imported_at s;
     r_total_amount := stored_total db (s_id s) |}.

Definition select_period (db : database) (period : string) : list sim_row :=
  map (select_row db)
      (filter (fun s => String.eqb (s_period s) period) (statements db)).

(** An element of the returned list: [{**dict(row), "diff_ratio": ...,
    "bank_match": ...}]. *)
Record candidate := {
  cand_row   : sim_row;
  diff_ratio : Q;
  bank_match : bool
}.

Definition ratio_of (total_amount existing_total : Q) : Q :=
  Qabs (total_amount - existing_total) / Qmax (Qabs existing_total) 1.

(** The body of the [for row in rows] loop: the candidates a row appends. *)
Definition check_row (bank : string) (total_amount tolerance : Q)
    (row : sim_row) : list candidate :=
  let existing_total := r_total_amount row in
  if Qeq_bool existing_total 0 && Qeq_bool total_amount 0 then
    [ {| cand_row := row; diff_ratio := 0;
         bank_match := String.eqb (r_bank row) bank |} ]
  else if Qeq_bool existing_total 0 then []
  else
    let d := ratio_of total_amount existing_total in
    if Qle_bool d tolerance then
      [ {| cand_row := row; diff_ratio := d;
           bank_match := String.eqb (r_bank row) bank |} ]
    else [].

Definition find_similar_statement (db : database) (bank period : string)
    (total_amount tolerance : Q) : list candidate :=
  flat_map (check_row bank total_amount tolerance) (select_period db period).

Definition default_tolerance : Q := 5 # 100.

(** When a stored total [S] and an incoming total [T] are similar. *)
Definition similar_totals (T tol S : Q) : Prop :=
  (S == 0 /\ T == 0) \/ (~ S == 0 /\ ratio_of T S <= tol).

(** Statement [s] is among the candidates returned. *)
Definition includes (db : database) (res : list candidate) (s : stmt_row) : Prop :=
  exists c, In c res /\ cand_row c = select_row db s.

End Similar.

(** ** Python records *)

Module Py.

(** The value under a key of a record dict: the key is absent, holds
    [None], or holds a value. *)
Inductive field (A : Type) : Type :=
| Missing : field A
| PyNone  : field A
| Val     : A -> field A.
Arguments Missing {A}.
Arguments PyNone {A}.
Arguments Val {A} _.

(** [t.get(k)] *)
Definition get {A} (f : field A) : option A :=
  match f with Val a => Some a | _ => None end.

(** [t.get(k, d)]: the default replaces an absent key only. *)
Definition get_default {A} (f : field A) (d : A) : option A :=
  match f with Missing => Some d | PyNone => None | Val a => Some a end.

(** Truth value of a [str] or [None]. *)
Definition truthy (o : option string) : bool :=
  match o with Some s => negb (String.eqb s EmptyString) | None => false end.

(** A candidate transaction as the extraction and the editor hand it over.
    [amount], when the key is present, is a number: [page_import] drops the
    rows whose amount is [None] or NaN before they are checked or saved. *)
Record txn := {
  trans_date   : field string;
  posting_date : field string;
  description  : field string;
  amount       : option Q;
  category     : field string;
  subcategory  : field string
}.

(** [float(t.get("amount", 0))] *)
Definition float_amount (t : txn) : Q :=
  match amount t with Some a => a | None => 0 end.

End Py.
Import Py.

(** ** Transaction overlap detector: [find_overlapping_transactions] *)

Module Overlap.

(** [ABS(amount - ?) < 1.0] *)
Definition within_slack (stored param : Q) : bool :=
  Qltb (Qabs (stored - param)) 1.

(** The [WHERE] clause of the exact query. *)
Definition exact_where (date desc : option string) (a : Q) (r : tx_row) : bool :=
  sql_text_eq (t_trans_date r) date
  && sql_text_eq (t_description r) desc
  && within_slack (t_amount r) a.

(** The [WHERE] clause of the soft query. *)
Definition soft_where (date : option string) (a : Q) (r : tx_row) : bool :=
  sql_text_eq (t_trans_date r) date && within_slack (t_amount r) a.

(** [SELECT id ... LIMIT 1] followed by [fetchone()]: is there a row? *)
Definition fetchone (db : database) (where_ : tx_row -> bool) : bool :=
  existsb where_ (transactions db).

Definition date_str (t : txn) : option string := get_default (trans_date t) EmptyString.
Definition desc (t : txn) : option string := get_default (description t) EmptyString.

Definition exact (db : database) (t : txn) : bool :=
  fetchone db (exact_where (date_str t) (desc t) (float_amount t)).

Definition soft (db : database) (t : txn) : bool :=
  fetchone db (soft_where (date_str t) (float_amount t)).

(** [amount > 0] *)
Definition positive (t : txn) : bool := Qltb 0 (float_amount t).

(** One iteration of [for t in transactions], on the pair
    [(exact_count, soft_count)]. *)
Definition step (db : database) (acc : nat * nat) (t : txn) : nat * nat :=
  if Qle_bool (float_amount t) 0 then acc
  else
    let e := if exact db t then S (fst acc) else fst acc in
    let s := if soft db t then S (snd acc) else snd acc in
    (e, s).

Definition b2n (b : bool) : nat := if b then 1%nat else 0%nat.

Definition count_loop (db : database) (txs : list txn) : nat * nat :=
  fold_left (step db) txs (0, 0)%nat.

(** The returned dict. The key [positive_total] is set on the last
    [return] only. *)
Record overlap_result := {
  exact_count    : nat;
  soft_count     : nat;
  overlap_ratio  : Q;
  total          : nat;
  positive_total : option nat
}.

Definition Qnat (n : nat) : Q := inject_Z (Z.of_nat n).

Definition find_overlapping_transactions (db : database) (txs : list txn)
    : overlap_result :=
  match txs with
  | [] => {| exact_count := 0; soft_count := 0; overlap_ratio := 0;
             total := 0; positive_total := None |}
  | _ :: _ =>
      let '(e, s) := count_loop db txs in
      let p := List.length (filter positive txs) in
      if Nat.eqb p 0 then
        {| exact_count := 0; soft_count := 0; overlap_ratio := 0;
           total := List.length txs; positive_total := None |}
      else
        {| exact_count := e; soft_count := s;
           overlap_ratio := Qnat s / Qnat p;
           total := List.length txs; positive_total := Some p |}
  end.

(** The conditions of the two queries as propositions on a stored row. *)
Definition exact_match (t : txn) (r : tx_row) : Prop :=
  (exists d, t_trans_date r = Some d /\ date_str t = Some d) /\
  (exists x, t_description r = Some x /\ desc t = Some x) /\
  Qabs (t_amount r - float_amount t) < 1.

Definition soft_match (t : txn) (r : tx_row) : Prop :=
  (exists d, t_trans_date r = Some d /\ date_str t = Some d) /\
  Qabs (t_amount r - float_amount t) < 1.

End Overlap.

(** ** Connections *)

Module Conn.

(** An open [sqlite3] connection: [disk] is what is committed, [view] what
    the connection sees (the committed rows and its own pending writes).
    [fault] counts the write statements the storage still accepts before
    [execute] raises; [None] is a storage that does not fail. *)
Record conn := {
  disk  : database;
  view  : database;
  fault : option nat
}.

Inductive exn := OperationalError.

(** Computations on a connection that may raise. The connection survives
    the exception, as the [finally] clause needs it. *)
Definition M (A : Type) : Type := conn -> (exn + A) * conn.

Definition ret {A} (a : A) : M A := fun c => (inr a, c).

Definition bind {A B} (m : M A) (k : A -> M B) : M B :=
  fun c => match m c with
           | (inr a, c') => k a c'
           | (inl e, c') => (inl e, c')
           end.

Definition raise {A} (e : exn) : M A := fun c => (inl e, c).

Notation "x <- m ;; k" := (bind m (fun x => k))
  (at level 61, m at next level, right associativity).
Notation "m ;;; k" := (bind m (fun _ => k))
  (at level 61, right associativity).

(** [for x in xs: body(x)] *)
Fixpoint for_each {A} (body : A -> M unit) (xs : list A) : M unit :=
  match xs with
  | [] => ret tt
  | x :: rest => body x ;;; for_each body rest
  end.

(** [get_db()] *)
Definition get_db (f : option nat) (db : database) : conn :=
  {| disk := db; view := db; fault := f |}.

(** A write statement: raises when the storage fails, otherwise updates the
    view of the connection (an implicit transaction is open from the first
    write on). *)
Definition write {A} (upd : database -> A * database) : M A :=
  fun c => match fault c with
           | Some O => raise OperationalError c
           | Some (S k) =>
               let '(a, v) := upd (view c) in
               (inr a, {| disk := disk c; view := v; fault := Some k |})
           | None =>
               let '(a, v) := upd (view c) in
               (inr a, {| disk := disk c; view := v; fault := None |})
           end.

(** [conn.commit()] *)
Definition commit : M unit :=
  fun c => (inr tt, {| disk := view c; view := view c; fault := fault c |}).

(** [conn.rollback()] *)
Definition rollback : M unit :=
  fun c => (inr tt, {| disk := disk c; view := disk c; fault := fault c |}).

(** [conn.close()]: pending writes are not committed; what remains is the
    committed database. *)
Definition close (c : conn) : database := disk c.

(** [try: body finally: conn.close()] on a fresh connection: the result or
    the exception of [body] is passed on after the connection is closed. *)
Definition with_connection {A} (f : option nat) (body : M A) (db : database)
    : (exn + A) * database :=
  let '(r, c) := body (get_db f db) in (r, close c).

(** [INSERT INTO statements (...)]; returns [cur.lastrowid]. *)
Definition insert_statement (filename bank period imported_at : string)
    (tx_count : Z) (cutoff_day : option Z) (file_hash : option string) : M Z :=
  write (fun v =>
    let id := (seq_statements v + 1)%Z in
    (id, {| statements := statements v ++
              [ {| s_id := id; s_filename := filename; s_bank := bank;
                   s_period := period; s_imported_at := imported_at;
                   s_tx_count := tx_count; s_cutoff_day := cutoff_day;
                   s_file_hash := file_hash |} ];
            transactions := transactions v;
            seq_statements := id;
            seq_transactions := seq_transactions v |})).

(** The row [INSERT INTO transactions (...)] adds, but for its id. *)
Record tx_values := {
  v_statement_id : Z;
  v_trans_date   : option string;
  v_posting_date : option string;
  v_description  : option string;
  v_amount       : Q;
  v_category     : option string;
  v_subcategory  : option string;
  v_bank         : string
}.

Definition tx_with_id (id : Z) (x : tx_values) : tx_row :=
  {| t_id := id; t_statement_id := v_statement_id x;
     t_trans_date := v_trans_date x; t_posting_date := v_posting_date x;
     t_description := v_description x; t_amount := v_amount x;
     t_category := v_category x; t_subcategory := v_subcategory x;
     t_bank := v_bank x |}.

Definition insert_transaction (x : tx_values) : M unit :=
  write (fun v =>
    let id := (seq_transactions v + 1)%Z in
    (tt, {| statements := statements v;
            transactions := transactions v ++ [tx_with_id id x];
            seq_statements := seq_statements v;
            seq_transactions := id |})).

(** [DELETE FROM transactions WHERE statement_id=?] *)
Definition delete_transactions_of (sid : Z) : M unit :=
  write (fun v =>
    (tt, {| statements := statements v;
            transactions :=
              filter (fun t => negb (Z.eqb (t_statement_id t) sid))
                     (transactions v);
            seq_statements := seq_statements v;
            seq_transactions := seq_transactions v |})).

(** [DELETE FROM statements WHERE id=?] *)
Definition delete_statement_row (sid : Z) : M unit :=
  write (fun v =>
    (tt, {| statements :=
              filter (fun s => negb (Z.eqb (s_id s) sid)) (statements v);
            transactions := transactions v;
            seq_statements := seq_statements v;
            seq_transactions := seq_transactions v |})).

End Conn.
Import Conn.

(** ** Writers: [save_transactions] and [delete_statement] *)

Module Store.

Local Open Scope string_scope.

(** What [datetime.now()] gives during a call. *)
Record clock := {
  year      : nat;
  month     : nat;
  isoformat : string
}.

Definition two_digits (n : nat) : string :=
  let d := NilEmpty.string_of_uint (Nat.to_uint n) in
  if Nat.ltb n 10 then "0" ++ d else d.

(** [datetime.now().strftime("%Y-%m")] *)
Definition strftime_ym (k : clock) : string :=
  NilEmpty.string_of_uint (Nat.to_uint (year k)) ++ "-" ++ two_digits (month k).

(** [max(x :: l)] on [str]: the first of the largest elements. *)
Fixpoint max_from (best : string) (l : list string) : string :=
  match l with
  | [] => best
  | x :: rest => if String.ltb best x then max_from x rest else max_from best rest
  end.

(** [[t["trans_date"] for t in transactions if t.get("trans_date")]] *)
Definition dates (txs : list txn) : list string :=
  flat_map (fun t => match get (trans_date t) with
                     | Some d => if truthy (Some d) then [d] else []
                     | None => []
                     end) txs.

(** [max(dates)[:7] if dates else default] *)
Definition period_of (txs : list txn) (default : string) : string :=
  match dates txs with
  | [] => default
  | d :: rest => substring 0 7 (max_from d rest)
  end.

(** [",".join(file_hashes) if file_hashes else None] *)
Definition hash_str (file_hashes : option (list string)) : option string :=
  match file_hashes with
  | None | Some [] => None
  | Some hs => Some (String.concat "," hs)
  end.

Definition default_category : string := "อื่นๆ".

(** The parameter tuple of the transaction [INSERT]. *)
Definition values_of (stmt_id : Z) (bank : string) (t : txn) : tx_values :=
  {| v_statement_id := stmt_id;
     v_trans_date   := get_default (trans_date t) EmptyString;
     v_posting_date := get_default (posting_date t) EmptyString;
     v_description  := get_default (description t) EmptyString;
     v_amount       := float_amount t;
     v_category     := get_default (category t) default_category;
     v_subcategory  := get (subcategory t);
     v_bank         := bank |}.

(** The [try] block of [save_transactions]. *)
Definition save_body (now : clock) (bank : string) (filenames : list string)
    (txs : list txn) (cutoff_day : option Z)
    (file_hashes : option (list string)) : M unit :=
  let period := period_of txs (strftime_ym now) in
  stmt_id <- insert_statement (String.concat ", " filenames) bank period
               (isoformat now) (Z.of_nat (List.length txs)) cutoff_day
               (hash_str file_hashes) ;;
  for_each (fun t => insert_transaction (values_of stmt_id bank t)) txs ;;;
  commit.

Definition save_transactions (f : option nat) (now : clock) (bank : string)
    (filenames : list string) (txs : list txn) (cutoff_day : option Z)
    (file_hashes : option (list string)) (db : database)
    : (exn + unit) * database :=
  with_connection f (save_body now bank filenames txs cutoff_day file_hashes) db.

(** [try: ... except Exception: conn.rollback(); raise] *)
Definition or_rollback {A} (body : M A) : M A :=
  fun c => match body c with
           | (inr a, c') => (inr a, c')
           | (inl e, c') => (inl e, snd (rollback c'))
           end.

Definition delete_statement (f : option nat) (stmt_id : Z) (db : database)
    : (exn + unit) * database :=
  with_connection f
    (or_rollback (delete_transactions_of stmt_id ;;;
                  delete_statement_row stmt_id ;;;
                  commit)) db.

(** The rows a successful [save_transactions] adds to [db]. *)
Definition new_statement (now : clock) (bank : string) (filenames : list string)
    (txs : list txn) (cutoff_day : option Z)
    (file_hashes : option (list string)) (db : database) : stmt_row :=
  {| s_id := (seq_statements db + 1)%Z;
     s_filename := String.concat ", " filenames;
     s_bank := bank;
     s_period := period_of txs (strftime_ym now);
     s_imported_at := isoformat now;
     s_tx_count := Z.of_nat (List.length txs);
     s_cutoff_day := cutoff_day;
     s_file_hash := hash_str file_hashes |}.

Fixpoint new_transactions (next_id stmt_id : Z) (bank : string)
    (txs : list txn) : list tx_row :=
  match txs with
  | [] => []
  | t :: rest =>
      tx_with_id next_id (values_of stmt_id bank t)
      :: new_transactions (next_id + 1) stmt_id bank rest
  end.

Definition saved (now : clock) (bank : string) (filenames : list string)
    (txs : list txn) (cutoff_day : option Z)
    (file_hashes : option (list string)) (db : database) : database :=
  {| statements := statements db ++
       [new_statement now bank filenames txs cutoff_day file_hashes db];
     transactions := transactions db ++
       new_transactions (seq_transactions db + 1) (seq_statements db + 1)
                        bank txs;
     seq_statements := (seq_statements db + 1)%Z;
     seq_transactions := (seq_transactions db + Z.of_nat (List.length txs))%Z |}.

(** The storage takes [n] more write statements. *)
Definition accepts (f : option nat) (n : nat) : bool :=
  match f with None => true | Some k => Nat.leb n k end.

Definition spend (f : option nat) (n : nat) : option nat :=
  match f with None => None | Some k => Some (k - n)%nat end.

(** The view of a connection after the transaction rows of [txs] went in. *)
Definition with_rows (stmt_id : Z) (bank : string) (txs : list txn)
    (v : database) : database :=
  {| statements := statements v;
     transactions := transactions v ++
       new_transactions (seq_transactions v + 1) stmt_id bank txs;
     seq_statements := seq_statements v;
     seq_transactions := (seq_transactions v + Z.of_nat (List.length txs))%Z |}.

(** The view of a connection after the statement row went in. *)
Definition with_statement (row : stmt_row) (v : database) : database :=
  {| statements := statements v ++ [row];
     transactions := transactions v;
     seq_statements := s_id row;
     seq_transactions := seq_transactions v |}.

(** What a successful [delete_statement] leaves. *)
Definition deleted (stmt_id : Z) (db : database) : database :=
  {| statements :=
       filter (fun s => negb (Z.eqb (s_id s) stmt_id)) (statements db);
     transactions :=
       filter (fun t => negb (Z.eqb (t_statement_id t) stmt_id))
              (transactions db);
     seq_statements := seq_statements db;
     seq_transactions := seq_transactions db |}.

(** The databases the application can produce: it starts from the empty
    tables of [init_db], and its only writers are [save_transactions] and
    [delete_statement]. *)
Inductive reachable : database -> Prop :=
| reach_init : reachable Db.empty
| reach_save f now bank filenames txs cutoff_day file_hashes db :
    reachable db ->
    reachable (snd (save_transactions f now bank filenames txs cutoff_day
                                      file_hashes db))
| reach_delete f stmt_id db :
    reachable db ->
    reachable (snd (delete_statement f stmt_id db)).

End Store.
Import Store.

(** ** Fingerprint index: [find_duplicate_statement] *)

Module Fingerprint.

(** [str.isspace] on the ASCII range: tab to carriage return, the four
    separators U+001C to U+001F, and the space. *)
Definition isspace (c : ascii) : bool :=
  let n := nat_of_ascii c in
  (Nat.leb 9 n && Nat.leb n 13) || (Nat.leb 28 n && Nat.leb n 32).

Fixpoint lstrip (s : string) : string :=
  match s with
  | EmptyString => EmptyString
  | String c rest => if isspace c then lstrip rest else s
  end.

Fixpoint rstrip (s : string) : string :=
  match s with
  | EmptyString => EmptyString
  | String c rest =>
      match rstrip rest with
      | EmptyString => if isspace c then EmptyString else String c EmptyString
      | kept => String c kept
      end
  end.

(** [h.strip()] *)
Definition strip (s : string) : string := rstrip (lstrip s).

(** [s.split(sep)] for a one-character separator. *)
Fixpoint split (sep : ascii) (s : string) : list string :=
  match s with
  | EmptyString => [EmptyString]
  | String c rest =>
      if Ascii.eqb c sep then EmptyString :: split sep rest
      else match split sep rest with
           | [] => [String c EmptyString]
           | piece :: pieces => String c piece :: pieces
           end
  end.

Definition comma : ascii := ascii_of_nat 44.

(** [[h.strip() for h in (row["file_hash"] or EMPTY).split(",")]], with
    EMPTY the empty string. *)
Definition stored (file_hash : option string) : list string :=
  map strip (split comma (match file_hash with Some h => h | None => EmptyString end)).

(** [file_hash in stored] *)
Definition contains (file_hash : string) (s : stmt_row) : bool :=
  existsb (String.eqb file_hash) (stored (s_file_hash s)).

(** A row of [SELECT id, filename, bank, period, imported_at, file_hash]. *)
Record dup_row := {
  d_id          : Z;
  d_filename    : string;
  d_bank        : string;
  d_period      : string;
  d_imported_at : string;
  d_file_hash   : option string
}.

Definition project (s : stmt_row) : dup_row :=
  {| d_id := s_id s; d_filename := s_filename s; d_bank := s_bank s;
     d_period := s_period s; d_imported_at := s_imported_at s;
     d_file_hash := s_file_hash s |}.

(** [... FROM statements WHERE file_hash IS NOT NULL] *)
Definition select_hashed (v : database) : list stmt_row :=
  filter (fun s => match s_file_hash s with Some _ => true | None => false end)
         (statements v).

(** The function opens a connection, reads, closes; the database it leaves
    behind is returned next to the result. *)
Definition find_duplicate_statement (db : database) (file_hash : string)
    : option dup_row * database :=
  if String.eqb file_hash EmptyString then (None, db)
  else
    let c := get_db None db in
    let rows := select_hashed (view c) in
    let db' := close c in
    (option_map project (find (contains file_hash) rows), db').

(** Statement [s] holds fingerprint [h] in its comma-separated set. *)
Definition holds (h : string) (s : stmt_row) : Prop :=
  exists joined, s_file_hash s = Some joined /\ In h (stored (Some joined)).

(** A fingerprint as [compute_file_hash] produces it has no comma in it and
    no white space around it. *)
Fixpoint comma_free (s : string) : bool :=
  match s with
  | EmptyString => true
  | String c rest => negb (Ascii.eqb c comma) && comma_free rest
  end.

Definition clean (h : string) : Prop := comma_free h = true /\ strip h = h.

End Fingerprint.

(** ** Consensus aggregator: the votes of [process_uploaded_file] *)

Module Consensus.

Section Vote.

Context {A : Type} (eqb : A -> A -> bool).

(** [Counter]: the items in first-insertion order, as a [dict] keeps them. *)
Definition counter := list (A * nat).

(** [c[x] += 1] *)
Fixpoint incr (x : A) (c : counter) : counter :=
  match c with
  | [] => [(x, 1%nat)]
  | (y, n) :: rest =>
      if eqb y x then (y, S n) :: rest else (y, n) :: incr x rest
  end.

(** [Counter(iterable)] *)
Definition Counter (l : list A) : counter :=
  fold_left (fun c x => incr x c) l [].

(** [max(items, key=itemgetter(1))]: the first of the items with the
    largest count. *)
Fixpoint max_item (best : A * nat) (items : counter) : A * nat :=
  match items with
  | [] => best
  | it :: rest =>
      if Nat.ltb (snd best) (snd it) then max_item it rest
      else max_item best rest
  end.

(** [c.most_common(1)] *)
Definition most_common_1 (c : counter) : list (A * nat) :=
  match c with
  | [] => []
  | it :: rest => [max_item it rest]
  end.

(** [Counter(l).most_common(1)[0][0]], defined when [l] is not empty. *)
Definition vote (l : list A) : option A :=
  match most_common_1 (Counter l) with
  | [] => None
  | (x, _) :: _ => Some x
  end.

(** Number of times [x] was observed. *)
Definition occ (x : A) (l : list A) : nat :=
  List.length (filter (eqb x) l).

(** [x] wins the vote on [l]: it was observed, nothing was observed more
    often, and whatever was first observed before it was observed strictly
    less often. *)
Definition wins (x : A) (l : list A) : Prop :=
  (forall y, occ y l <= occ x l)%nat /\
  exists before after,
    l = before ++ x :: after /\ ~ In x before /\
    forall y, In y before -> (occ y l < occ x l)%nat.

(** What [Counter(l)] holds: each observed value once, with the number of
    times it was observed, in the order of first observation. *)
Definition counted (l : list A) (c : counter) : Prop :=
  NoDup (map fst c) /\
  (forall x n, In (x, n) c -> n = occ x l) /\
  (forall x, In x l -> In x (map fst c)) /\
  (forall k1 x k2, map fst c = k1 ++ x :: k2 ->
     exists l1 l2, l = l1 ++ x :: l2 /\ ~ In x l1 /\
                   forall y, In y l1 -> In y k1).

End Vote.

(** What [extract_from_image] read on one page. *)
Record page_result := {
  p_cutoff_day : option Z;
  p_bank_name  : option string;
  p_card_name  : option string
}.

(** [if result.get("cutoff_day")] *)
Definition truthy_int (o : option Z) : bool :=
  match o with Some z => negb (Z.eqb z 0) | None => false end.

(** The three lists the page loop fills. A page whose extraction raised
    ([None]) adds nothing. *)
Definition cutoff_days (pages : list (option page_result)) : list Z :=
  flat_map (fun p => match p with
                     | Some r => match p_cutoff_day r with
                                 | Some z => if truthy_int (Some z) then [z] else []
                                 | None => []
                                 end
                     | None => []
                     end) pages.

Definition names (key : page_result -> option string)
    (pages : list (option page_result)) : list string :=
  flat_map (fun p => match p with
                     | Some r => match key r with
                                 | Some s => if truthy (Some s) then [s] else []
                                 | None => []
                                 end
                     | None => []
                     end) pages.

Definition bank_names := names p_bank_name.
Definition card_names := names p_card_name.

(** [cutoff_day = None; if cutoff_days: cutoff_day = Counter(...)...] *)
Definition cutoff_day (pages : list (option page_result)) : option Z :=
  match cutoff_days pages with
  | [] => None
  | l => vote Z.eqb l
  end.

(** [Counter(b for b in names if b).most_common(1)[0][0]] if the counter is
    not empty, else the empty string: the value of [top_bank] or
    [top_card], a [str]. *)
Definition top (l : list string) : option string :=
  let voted := filter (fun b => truthy (Some b)) l in
  match Counter String.eqb voted with
  | [] => Some EmptyString
  | _ :: _ => vote String.eqb voted
  end.

(** The values of [top_bank] and [top_card]; they are assigned only under
    [if bank_names or card_names]. *)
Definition tops (pages : list (option page_result))
    : option (option string * option string) :=
  match bank_names pages, card_names pages with
  | [], [] => None
  | bs, cs => Some (top bs, top cs)
  end.

(** [x or y] on [str]/[None] values. *)
Definition py_or (x y : option string) : option string :=
  if truthy x then x else y.

Definition suggested_bank (pages : list (option page_result)) : option string :=
  match tops pages with
  | None => None
  | Some (top_bank, top_card) =>
      if truthy top_bank && truthy top_card then
        match top_bank, top_card with
        | Some b, Some c => Some (b ++ " " ++ c)%string
        | _, _ => None
        end
      else py_or (py_or top_bank top_card) None
  end.

End Consensus.

(** ** The save button of [page_import] *)

Module Page.

Import Similar Overlap.

(** [sum(r["amount"] for r in final if (r.get("amount") or 0) > 0)] *)
Definition total_amount (final : list txn) : Q :=
  fold_left Qplus (map float_amount (filter positive final)) 0.

(** [max(dates)[:7]] if [dates] is not empty, else the empty string. *)
Definition est_period (final : list txn) : string :=
  period_of final EmptyString.

(** The entries of [dup_warnings]; the source renders each as one line of
    markdown. *)
Inductive warning :=
| StatementLevel (s : candidate)
| TransactionLevel (exact soft pos_total : nat) (ratio : Q).

(** Level 1, under [if est_period:]. *)
Definition statement_warnings (db : database) (current_bank : string)
    (final : list txn) : list warning :=
  if truthy (Some (est_period final)) then
    map StatementLevel
        (find_similar_statement db current_bank (est_period final)
                                (total_amount final) default_tolerance)
  else [].

(** Level 2: [if overlap["overlap_ratio"] >= 0.5]. *)
Definition transaction_warnings (db : database) (final : list txn)
    : list warning :=
  let overlap := find_overlapping_transactions db final in
  let pos_total := match positive_total overlap with
                   | Some p => p
                   | None => total overlap
                   end in
  if Qle_bool (1 # 2) (overlap_ratio overlap) then
    [TransactionLevel (exact_count overlap) (soft_count overlap) pos_total
                      (overlap_ratio overlap)]
  else [].

Definition dup_warnings (db : database) (current_bank : string)
    (final : list txn) : list warning :=
  statement_warnings db current_bank final ++ transaction_warnings db final.

(** The staged batch in the session: [pending_files], [pending_cutoff_day],
    [pending_file_hashes]. *)
Record pending := {
  pending_files       : list string;
  pending_cutoff_day  : option Z;
  pending_file_hashes : option (list string)
}.

(** Where one import attempt stands. *)
Inductive state :=
| Review (p : pending)
| AwaitingConfirmation (p : pending) (warnings : list warning)
                       (final : list txn) (bank : string)
| Committed (n : nat) (bank : string)
| Cancelled.

(** The four buttons: save and cancel on the review form, save again (with
    the state of the confirmation checkbox) and cancel under the duplicate
    warning. *)
Inductive event :=
| ClickSave (current_bank : string) (final : list txn)
| ClickCancel
| ClickSaveAgain (confirm : bool)
| ClickCancelDuplicate.

(** [_do_save]: a failed [save_transactions] raises before the session is
    cleared, so the state stays and the exception reaches the caller. *)
Definition do_save (f : option nat) (now : clock) (st : state) (p : pending)
    (bank : string) (final_rows : list txn) (db : database)
    : state * database * option exn :=
  match save_transactions f now bank (pending_files p) final_rows
                          (pending_cutoff_day p) (pending_file_hashes p) db with
  | (inr _, db') => (Committed (List.length final_rows) bank, db', None)
  | (inl e, db') => (st, db', Some e)
  end.

(** One click on the review form: the next state, the database, and the
    exception raised, if any. *)
Definition on_click (f : option nat) (now : clock) (st : state) (db : database)
    (ev : event) : state * database * option exn :=
  match st, ev with
  | Review p, ClickSave current_bank final =>
      match dup_warnings db current_bank final with
      | [] => do_save f now st p current_bank final db
      | ws => (AwaitingConfirmation p ws final current_bank, db, None)
      end
  | AwaitingConfirmation p ws final bank, ClickSaveAgain confirm =>
      if confirm then do_save f now st p bank final db else (st, db, None)
  | Review p, ClickCancel => (Cancelled, db, None)
  | AwaitingConfirmation p ws final bank, ClickCancelDuplicate =>
      (Review p, db, None)
  | _, _ => (st, db, None)
  end.

End Page.

Import Similar Overlap Fingerprint Consensus Page.

(** ** Integrity of the two tables *)

Module Integrity.

(** The rows of [transactions] that belong to statement [sid]. *)
Definition owned (db : database) (sid : Z) : list tx_row :=
  filter (fun t => Z.eqb (t_statement_id t) sid) (transactions db).

(** What the application keeps true of its tables although the schema does
    not enforce it: statement ids are distinct and were handed out by the
    AUTOINCREMENT counter, so are transaction ids; every transaction
    belongs to a stored statement and carries its bank; [tx_count] is the
    number of transactions of the statement. *)
Record well_formed (db : database) : Prop := {
  wf_statement_ids : NoDup (map s_id (statements db));
  wf_statement_seq :
    forall s, In s (statements db) -> (s_id s <= seq_statements db)%Z;
  wf_transaction_ids : NoDup (map t_id (transactions db));
  wf_transaction_seq :
    forall t, In t (transactions db) -> (t_id t <= seq_transactions db)%Z;
  wf_owner :
    forall t, In t (transactions db) ->
      exists s, In s (statements db) /\ s_id s = t_statement_id t /\
                s_bank s = t_bank t;
  wf_tx_count :
    forall s, In s (statements db) ->
      s_tx_count s = Z.of_nat (List.length (owned db (s_id s)))
}.

End Integrity.
Import Integrity.

(** ** The analyse button of [page_import] *)

Module Upload.

Local Open Scope string_scope.

(** [str.lower] on the ASCII letters. *)
Definition lower_char (c : ascii) : ascii :=
  let n := nat_of_ascii c in
  if Nat.leb 65 n && Nat.leb n 90 then ascii_of_nat (n + 32) else c.

Fixpoint lower (s : string) : string :=
  match s with
  | EmptyString => EmptyString
  | String c rest => String (lower_char c) (lower rest)
  end.

(** [s.endswith(suffix)] *)
Definition endswith (s suffix : string) : bool :=
  Nat.leb (String.length suffix) (String.length s)
  && String.eqb suffix
       (substring (String.length s - String.length suffix)
                  (String.length suffix) s).

(** An uploaded file: its name and the bytes [f.read()] returns. *)
Record uploaded_file := {
  name : string;
  raw  : string
}.

(** How a call of [process_uploaded_file] ends: with its three results, or
    with one of the exceptions the loop tells apart. *)
Inductive outcome :=
| Processed (txns : list txn) (cutoff_day : option Z)
            (suggested_bank : option string)
| NeedsPassword
| WrongPassword
| ValueError (message : string)
| Exception (message : string).

(** The entries of [errors]; the source renders each as one line. *)
Inductive error :=
| AlreadyImported (file : string) (dup : dup_row)
| PdfNeedsPassword (file : string)
| PdfWrongPassword (file : string)
| OtherValueError (file message : string)
| Failed (file message : string).

(** The six lists the loop over the uploaded files fills. *)
Record collected := {
  all_txns        : list txn;
  filenames       : list string;
  file_hashes     : list string;
  errors          : list error;
  cutoff_days     : list Z;
  suggested_banks : list string
}.

Definition nothing : collected :=
  {| all_txns := []; filenames := []; file_hashes := []; errors := [];
     cutoff_days := []; suggested_banks := [] |}.

Definition with_error (a : collected) (e : error) : collected :=
  {| all_txns := all_txns a; filenames := filenames a;
     file_hashes := file_hashes a; errors := errors a ++ [e];
     cutoff_days := cutoff_days a; suggested_banks := suggested_banks a |}.

(** What the analysis leaves in the session. *)
Inductive analysis :=
| Staged (rows : list txn) (p : pending) (errs : list error)
         (detected_bank : option string)
| NothingStaged (errs : list error) (no_rows_message : bool)
                (detected_bank : option string).

Section Analyse.

(** [compute_file_hash] is SHA-256 and [process_uploaded_file] runs the
    extraction service; both are taken as given. *)
Variable compute_file_hash : string -> string.
Variable process_uploaded_file : string -> string -> string -> outcome.

(** The body of [for i, f in enumerate(uploaded)]. *)
Definition analyse_file (db : database) (pdf_password : string)
    (a : collected) (f : uploaded_file) : collected :=
  let file_hash := compute_file_hash (raw f) in
  match fst (find_duplicate_statement db file_hash) with
  | Some dup => with_error a (AlreadyImported (name f) dup)
  | None =>
      let password :=
        if endswith (lower (name f)) ".pdf" then pdf_password
        else EmptyString in
      match process_uploaded_file (raw f) (name f) password with
      | Processed txns cutoff_day suggested_bank =>
          {| all_txns := all_txns a ++ txns;
             filenames := filenames a ++ [name f];
             file_hashes := file_hashes a ++ [file_hash];
             errors := errors a;
             cutoff_days := cutoff_days a ++
               match cutoff_day with
               | Some d => if truthy_int (Some d) then [d] else []
               | None => []
               end;
             suggested_banks := suggested_banks a ++
               match suggested_bank with
               | Some b => if truthy (Some b) then [b] else []
               | None => []
               end |}
      | NeedsPassword => with_error a (PdfNeedsPassword (name f))
      | WrongPassword => with_error a (PdfWrongPassword (name f))
      | ValueError m => with_error a (OtherValueError (name f) m)
      | Exception m => with_error a (Failed (name f) m)
      end
  end.

Definition collect (db : database) (pdf_password : string)
    (uploaded : list uploaded_file) : collected :=
  fold_left (analyse_file db pdf_password) uploaded nothing.

(** The click on the analyse button. [bank] is the text of the bank
    input. *)
Definition analyse (db : database) (bank pdf_password : string)
    (uploaded : list uploaded_file) : analysis :=
  let a := collect db pdf_password uploaded in
  let detected_bank :=
    match suggested_banks a with
    | [] => None
    | bs => if String.eqb (strip bank) EmptyString
            then vote String.eqb bs else None
    end in
  match all_txns a with
  | [] =>
      NothingStaged (errors a)
                    (match errors a with [] => true | _ => false end)
                    detected_bank
  | rows =>
      let final_cutoff :=
        match cutoff_days a with
        | [] => None
        | ds => vote Z.eqb ds
        end in
      Staged rows
             {| pending_files := filenames a;
                pending_cutoff_day := final_cutoff;
                pending_file_hashes := Some (file_hashes a) |}
             (errors a) detected_bank
  end.

End Analyse.

End Upload.

(** ** The rows handed to the save button *)

Module Review.

(** A record of [edited.to_dict("records")]: the five columns of the
    editor, an empty cell being [None]. *)
Record editor_row := {
  e_trans_date  : option string;
  e_description : option string;
  e_amount      : option Q;
  e_category    : option string;
  e_subcategory : option string
}.

(** [str(row.get("description") or EMPTY).strip()], EMPTY the empty string. *)
Definition description_text (row : editor_row) : string :=
  strip (match e_description row with
         | Some d => if truthy (Some d) then d else EmptyString
         | None => EmptyString
         end).

(** The filter of the list comprehension that builds [final]: a
    description that is not blank and an amount that is neither [None] nor
    NaN. *)
Definition kept (row : editor_row) : bool :=
  truthy (Some (description_text row))
  && match e_amount row with Some _ => true | None => false end.

(** [{t["description"]: t for t in txns}]: a dict keeps one value per key,
    the last one assigned, at the place of the first. [None] is the
    [KeyError] of a staged row without a description. *)
Definition key := option string.












End Review.

(** ** Labels: [subcategorize] and the labelling of [process_uploaded_file] *)

Module Labels.

Local Open Scope string_scope.

Definition CATEGORIES : list string :=
  [ "ประกัน";
    "Subscription/ดิจิทัล";
    "ร้านสะดวกซื้อ";
    "ช้อปปิ้งออนไลน์";
    "ทางด่วน/ขนส่ง";
    "อาหาร/เครื่องดื่ม";
    "ซุปเปอร์มาร์เก็ต";
    "โทรศัพท์/อินเทอร์เน็ต";
    "เดินทาง";
    "บริการรถยนต์";
    "สุขภาพ";
    "ช้อปปิ้ง";
    "อื่นๆ" ].

Definition SUBCATEGORIES : list (string * list string) :=
  [ ("อาหาร/เครื่องดื่ม",
      ["ร้านอาหาร"; "คาเฟ่"; "Food Delivery"; "ซื้อของกิน"]);
    ("ช้อปปิ้งออนไลน์",
      ["Shopee"; "Lazada"; "Amazon"; "อื่นๆ"]);
    ("ทางด่วน/ขนส่ง",
      ["ทางด่วน"; "แท็กซี่/Grab"; "รถไฟฟ้า"; "น้ำมัน"]);
    ("เดินทาง",
      ["โรงแรม"; "ตั๋วเครื่องบิน"; "ทัวร์"; "ที่เที่ยว"; "รถเช่า"]);
    ("Subscription/ดิจิทัล",
      ["Netflix/Streaming"; "Spotify/Music"; "เกม"; "Cloud/Software"]);
    ("ร้านสะดวกซื้อ",
      ["CJ"; "7-11"; "Family Mart"; "Lotus Go"; "อื่นๆ"]);
    ("ซุปเปอร์มาร์เก็ต",
      ["Lotus"; "Big C"; "Tops"; "Villa Market"; "Makro"]);
    ("โทรศัพท์/อินเทอร์เน็ต",
      ["AIS"; "True"; "DTAC"; "NT"; "3BB/Fiber"]);
    ("ประกัน",
      ["รถยนต์"; "สุขภาพ"; "ชีวิต"; "ทรัพย์สิน"]);
    ("บริการรถยนต์",
      ["ยาง/เบรก"; "น้ำมันเชื้อเพลิง"; "แบตเตอรี่"; "ซ่อมบำรุง"; "ล้างรถ"]);
    ("สุขภาพ",
      ["โรงพยาบาล"; "คลินิก"; "ร้านขายยา"; "ทันตกรรม"; "ตรวจสุขภาพ"]);
    ("ช้อปปิ้ง",
      ["กีฬา"; "เสื้อผ้า"; "ของใช้บ้าน"; "ห้างสรรพสินค้า"; "อิเล็กทรอนิกส์"]) ].

(** [x in l] on a list of [str]. *)
Definition mem (x : string) (l : list string) : bool :=
  existsb (String.eqb x) l.

(** [SUBCATEGORIES[cat]]; [None] is the [KeyError]. *)
Fixpoint getitem (cat : string) (d : list (string * list string))
    : option (list string) :=
  match d with
  | [] => None
  | (k, v) :: rest => if String.eqb k cat then Some v else getitem cat rest
  end.

(** [cat in SUBCATEGORIES], [cat] a [str] or [None]. *)
Definition has_subcategories (cat : option string) : bool :=
  match cat with
  | Some c => match getitem c SUBCATEGORIES with Some _ => true | None => false end
  | None => false
  end.

(** A row of [get_few_shot_examples]. *)
Record example := {
  ex_description : option string;
  ex_category    : string;
  ex_subcategory : option string
}.

(** [examples_by_cat[cat]]: the examples of the category that carry a
    subcategory, in order. *)
Definition examples_by_cat (examples : list example) (cat : string)
    : list example :=
  filter (fun ex => truthy (ex_subcategory ex)
                    && has_subcategories (Some (ex_category ex))
                    && String.eqb (ex_category ex) cat) examples.

(** [groups[cat].append(item)] on a [defaultdict(list)], the keys in the
    order of their first use. *)
Definition group := (string * list (nat * option string))%type.

Fixpoint append_to (cat : string) (item : nat * option string)
    (groups : list group) : list group :=
  match groups with
  | [] => [(cat, [item])]
  | (c, items) :: rest =>
      if String.eqb c cat then (c, (items ++ [item])%list) :: rest
      else (c, items) :: append_to cat item rest
  end.

(** [enumerate(zip(descriptions, categories))] *)
Definition enumerate {A} (l : list A) : list (nat * A) :=
  combine (seq 0 (List.length l)) l.

Definition group_step (groups : list group)
    (x : nat * (option string * option string)) : list group :=
  let '(i, (desc, cat)) := x in
  match cat with
  | Some c => if has_subcategories cat then append_to c (i, desc) groups
              else groups
  | None => groups
  end.

Definition groups_of (descriptions categories : list (option string))
    : list group :=
  fold_left group_step (enumerate (combine descriptions categories)) [].

(** [results[idx] = v]; [None] is the [IndexError]. *)
Fixpoint setitem {A} (l : list A) (idx : nat) (v : A) : option (list A) :=
  match l, idx with
  | [], _ => None
  | _ :: rest, O => Some (v :: rest)
  | x :: rest, S i => option_map (cons x) (setitem rest i v)
  end.

(** [for idx, subcat in zip(indices, subcats_result)], inside the [try]: an
    exception ends the loop and keeps what was written. *)
Fixpoint assign (results : list (option string))
    (pairs : list (nat * option string)) (allowed : list string)
    : list (option string) :=
  match pairs with
  | [] => results
  | (idx, subcat) :: rest =>
      match subcat with
      | Some sc =>
          if truthy (Some sc) && mem sc allowed then
            match setitem results idx (Some sc) with
            | Some results' => assign results' rest allowed
            | None => results
            end
          else assign results rest allowed
      | None => assign results rest allowed
      end
  end.

Section Labelling.

(** The two calls of the labelling service with the parsing of their
    answer: the category prompt of [categorize] and the subcategory prompt
    of one group. [None] is any exception of the call or of [json.loads]. *)
Variable ask_categories :
  list (option string) -> list example -> option (list (option string)).
Variable ask_subcategories :
  string -> list string -> list (option string) -> list example ->
  option (list (option string)).

(** One pass of [for cat, items in groups.items()]. *)
Definition group_pass (examples : list example)
    (results : option (list (option string))) (g : group)
    : option (list (option string)) :=
  match results with
  | None => None
  | Some res =>
      let '(cat, items) := g in
      match items with
      | [] => Some res
      | _ :: _ =>
          match getitem cat SUBCATEGORIES with
          | None => None
          | Some allowed =>
              match ask_subcategories cat allowed (map snd items)
                                      (examples_by_cat examples cat) with
              | Some subcats_result =>
                  Some (assign res (combine (map fst items) subcats_result)
                               allowed)
              | None => Some res
              end
          end
      end
  end.

Definition subcategorize (descriptions categories : list (option string))
    (examples : list example) : option (list (option string)) :=
  fold_left (group_pass examples) (groups_of descriptions categories)
            (Some (repeat None (List.length descriptions))).

(** [[t[k] for t in expenses]]; [None] is the [KeyError]. *)
Fixpoint column (k : txn -> field string) (expenses : list txn)
    : option (list (option string)) :=
  match expenses with
  | [] => Some []
  | t :: rest =>
      match k t, column k rest with
      | Missing, _ => None
      | _, None => None
      | PyNone, Some l => Some (None :: l)
      | Val x, Some l => Some (Some x :: l)
      end
  end.

Definition set_category (t : txn) (c : string) : txn :=
  {| trans_date := trans_date t; posting_date := posting_date t;
     description := description t; amount := amount t;
     category := Val c; subcategory := subcategory t |}.

Definition set_subcategory (t : txn) (sc : option string) : txn :=
  {| trans_date := trans_date t; posting_date := posting_date t;
     description := description t; amount := amount t;
     category := category t;
     subcategory := match sc with Some x => Val x | None => PyNone end |}.

(** [c if c in CATEGORIES else default] *)
Definition checked_category (c : option string) : string :=
  match c with
  | Some x => if mem x CATEGORIES then x else default_category
  | None => default_category
  end.

(** [for t, c in zip(expenses, cats): t["category"] = ...]; the rows beyond
    the answer are left as they are. *)
Fixpoint categorized (expenses : list txn) (cats : list (option string))
    : list txn :=
  match expenses, cats with
  | t :: rest, c :: cats' =>
      set_category t (checked_category c) :: categorized rest cats'
  | _, _ => expenses
  end.

(** [for t, sc in zip(expenses, subcats): t["subcategory"] = sc] *)
Fixpoint subcategorized (expenses : list txn) (subcats : list (option string))
    : list txn :=
  match expenses, subcats with
  | t :: rest, sc :: subcats' =>
      set_subcategory t sc :: subcategorized rest subcats'
  | _, _ => expenses
  end.

(** The blocks [# Categorize] and [# Subcategorize] of
    [process_uploaded_file]; [None] is the [KeyError] of a row without a
    description, which the function does not catch. *)
Definition label_expenses (examples : list example) (expenses : list txn)
    : option (list txn) :=
  match expenses with
  | [] => Some []
  | _ :: _ =>
      match column description expenses with
      | None => None
      | Some descs =>
          let with_cats :=
            match ask_categories descs examples with
            | Some cats => categorized expenses cats
            | None => map (fun t => set_category t default_category) expenses
            end in
          Some
            match column category with_cats with
            | None => map (fun t => set_subcategory t None) with_cats
            | Some categories =>
                match subcategorize descs categories examples with
                | Some subcats => subcategorized with_cats subcats
                | None => map (fun t => set_subcategory t None) with_cats
                end
            end
      end
  end.

End Labelling.

Section Valid.

Variable categories : list (option string).

(** A subcategory may stand at place [i]: the category at [i] has
    subcategories and this is one of them. *)
Definition allowed_at (i : nat) (sc : string) : Prop :=
  exists cat allowed,
    nth_error categories i = Some (Some cat) /\
    getitem cat SUBCATEGORIES = Some allowed /\
    In sc allowed /\ sc <> EmptyString.

Definition results_ok (n : nat) (results : list (option string)) : Prop :=
  List.length results = n /\
  forall i sc, nth_error results i = Some (Some sc) -> allowed_at i sc.

Definition group_ok (g : group) : Prop :=
  has_subcategories (Some (fst g)) = true /\
  forall i d, In (i, d) (snd g) ->
    nth_error categories i = Some (Some (fst g)).

End Valid.

(** The fields of a row the labelling does not write. *)
Definition core (t : txn) :=
  (trans_date t, posting_date t, description t, amount t).

(** The label a cell of a column list stands for. *)
Definition cell_of (f : field string) : option string :=
  match f with Val x => Some x | _ => None end.

End Labels.

(** ** The sunburst chart of [page_dashboard] *)

Module Sunburst.

Local Open Scope string_scope.

(** [s.split(sep, 1)]: the text before and after the first [sep], or
    [None] when [s] has no [sep] and the list is [[s]]. *)
Fixpoint split_once (sep s : string) : option (string * string) :=
  if String.prefix sep s then
    Some (EmptyString,
          substring (String.length sep)
                    (String.length s - String.length sep) s)
  else
    match s with
    | EmptyString => None
    | String c rest =>
        match split_once sep rest with
        | Some (before, after) => Some (String c before, after)
        | None => None
        end
    end.

(** [d[k] = d.get(k, 0) + amt] on a dict, the keys in insertion order. *)
Fixpoint dict_add (k : string) (amt : Q) (d : list (string * Q))
    : list (string * Q) :=
  match d with
  | [] => [(k, 0 + amt)]
  | (k', v) :: rest =>
      if String.eqb k' k then (k', v + amt) :: rest
      else (k', v) :: dict_add k amt rest
  end.

(** [d[k]]; [None] is the [KeyError]. *)
Fixpoint getitem {V} (k : string) (d : list (string * V)) : option V :=
  match d with
  | [] => None
  | (k', v) :: rest => if String.eqb k' k then Some v else getitem k rest
  end.

(** [if cat not in cat_subs: cat_subs[cat] = {}] followed by the addition
    to [cat_subs[cat][sub]]. *)
Fixpoint subs_add (cat sub : string) (amt : Q)
    (d : list (string * list (string * Q))) : list (string * list (string * Q)) :=
  match d with
  | [] => [(cat, dict_add sub amt [])]
  | (c, inner) :: rest =>
      if String.eqb c cat then (c, dict_add sub amt inner) :: rest
      else (c, inner) :: subs_add cat sub amt rest
  end.

(** The two dicts [cat_totals] and [cat_subs]. *)
Record tallies := {
  cat_totals : list (string * Q);
  cat_subs   : list (string * list (string * Q))
}.

(** One pass of [for _, row in path_df.iterrows()], on a row
    [(display_path, amount)]. *)
Definition tally (t : tallies) (row : string * Q) : tallies :=
  let '(display_path, amt) := row in
  match split_once " > " display_path with
  | Some (cat, sub) =>
      {| cat_totals := dict_add cat amt (cat_totals t);
         cat_subs := subs_add cat sub amt (cat_subs t) |}
  | None =>
      {| cat_totals := dict_add display_path amt (cat_totals t);
         cat_subs := cat_subs t |}
  end.

Definition tallied (path_df : list (string * Q)) : tallies :=
  fold_left tally path_df {| cat_totals := []; cat_subs := [] |}.

(** One node of the chart: an entry of each of [ids], [labels], [parents]
    and [values]. *)
Record node := {
  id     : string;
  label  : string;
  parent : string;
  value  : Q
}.

Definition category_node (entry : string * Q) : node :=
  {| id := fst entry; label := fst entry; parent := EmptyString;
     value := snd entry |}.

(** [sum(subs.values())] *)
Definition sub_total (subs : list (string * Q)) : Q :=
  fold_left Qplus (map snd subs) 0.




(** [sum] of the values of a list of nodes. *)
Definition values_sum (ns : list node) : Q :=
  fold_right (fun n acc => value n + acc) 0 ns.


End Sunburst.

(** ** Sample data *)

Module Sample.

Local Open Scope string_scope.

Definition statement (id : Z) (period : string) (hash : option string)
    : stmt_row :=
  {| s_id := id; s_filename := "jan.pdf"; s_bank := "KTB Visa";
     s_period := period; s_imported_at := "2026-02-01T10:00:00";
     s_tx_count := 1%Z; s_cutoff_day := Some 20%Z; s_file_hash := hash |}.

Definition stored_tx (id sid : Z) (date descr : string) (a : Q) : tx_row :=
  {| t_id := id; t_statement_id := sid; t_trans_date := Some date;
     t_posting_date := Some date; t_description := Some descr;
     t_amount := a; t_category := Some default_category;
     t_subcategory := None; t_bank := "KTB Visa" |}.

Definition candidate_tx (date descr : string) (a : Q) : txn :=
  {| trans_date := Val date; posting_date := Missing;
     description := Val descr; amount := Some a;
     category := Val default_category; subcategory := PyNone |}.

Definition january : stmt_row := statement 1 "2026-01" (Some "aa11,bb22").




(** One January statement holding a single purchase of [a] and a payment. *)
Definition db_total (a : Q) : database :=
  {| statements := [january];
     transactions := [stored_tx 1 1 "2026-01-15" "TMN 7-11 BANGKOK TH" a;
                      stored_tx 2 1 "2026-01-20" "PAYMENT" (- (500 # 1))];
     seq_statements := 1%Z; seq_transactions := 2%Z |}.

Definition now : clock :=
  {| year := 2026; month := 2; isoformat := "2026-02-01T10:00:00" |}.

(** A January batch, and the database after it was saved into the empty
    tables. *)
Definition batch : list txn :=
  [candidate_tx "2026-01-15" "TMN 7-11 BANGKOK TH" (150 # 1);
   candidate_tx "2026-01-18" "NETFLIX.COM" (419 # 1);
   candidate_tx "2026-01-20" "CASHBACK" (- (50 # 1))].

Definition staged : pending :=
  {| pending_files := ["jan.pdf"]; pending_cutoff_day := Some 20%Z;
     pending_file_hashes := Some ["aa11"] |}.

Definition db_saved : database :=
  snd (save_transactions None now "KTB Visa" ["jan.pdf"] batch (Some 20%Z)
                         (Some ["aa11"]) Db.empty).

(** Two uploads and stand-ins for the hash and the extraction. *)
Definition jan_file : Upload.uploaded_file :=
  {| Upload.name := "jan.PDF"; Upload.raw := "%PDF-jan" |}.

Definition feb_file : Upload.uploaded_file :=
  {| Upload.name := "feb.png"; Upload.raw := "PNG-feb" |}.

Definition sample_hash (raw : string) : string :=
  if String.eqb raw "%PDF-jan" then "aa11" else "ff66".

Definition sample_process (raw filename password : string) : Upload.outcome :=
  if String.eqb raw "%PDF-jan" then Upload.Processed batch (Some 20%Z) None
  else Upload.Processed [candidate_tx "2026-02-02" "GRAB" (90 # 1)] None
                        (Some "SCB").

(** Stand-ins for the labelling service: one that answers with a label
    outside the vocabulary for the second row, and one whose second
    subcategory belongs to another category. *)
Definition sample_categories (descs : list (option string))
    (examples : list Labels.example) : option (list (option string)) :=
  Some [Some "ร้านสะดวกซื้อ"; Some "Groceries"; Some "ช้อปปิ้งออนไลน์"].

Definition sample_subcategories (cat : string) (allowed : list string)
    (descs : list (option string)) (examples : list Labels.example)
    : option (list (option string)) :=
  if String.eqb cat "ร้านสะดวกซื้อ" then Some [Some "7-11"]
  else Some [Some "Netflix/Streaming"].

Definition page (cutoff : option Z) (bank card : option string)
    : option page_result :=
  Some {| p_cutoff_day := cutoff; p_bank_name := bank; p_card_name := card |}.

End Sample.

(** * Properties *)

(** ** Comparisons on rationals *)

Lemma Qltb_lt (x y : Q) : Qltb x y = true <-> x < y.
Proof.
  unfold Qltb. rewrite negb_true_iff. split; intro H.
  - apply Qnot_le_lt. intro Hle. apply Qle_bool_iff in Hle. congruence.
  - destruct (Qle_bool y x) eqn:E; [|reflexivity].
    apply Qle_bool_iff in E. exfalso. apply (Qlt_not_le _ _ H E).
Qed.


Lemma Qle_bool_false (x y : Q) : Qle_bool x y = false <-> y < x.
Proof.
  rewrite <- Qltb_lt. unfold Qltb. rewrite negb_true_iff. reflexivity.
Qed.

Lemma Qeq_bool_false (x y : Q) : Qeq_bool x y = false <-> ~ x == y.
Proof.
  split; intro H.
  - intro E. apply Qeq_bool_iff in E. congruence.
  - destruct (Qeq_bool x y) eqn:E; [|reflexivity].
    apply Qeq_bool_iff in E. contradiction.
Qed.

Lemma sql_text_eq_true (col param : option string) :
  sql_text_eq col param = true <->
  exists s, col = Some s /\ param = Some s.
Proof.
  destruct col as [a|], param as [b|]; simpl.
  - rewrite String.eqb_eq. split.
    + intros ->. eauto.
    + intros (s & E1 & E2). congruence.
  - split; [discriminate | intros (s & _ & E); discriminate].
  - split; [discriminate | intros (s & E & _); discriminate].
  - split; [discriminate | intros (s & E & _); discriminate].
Qed.

(** ** Statement matcher *)

Lemma check_row_In bank T tol row c :
  In c (check_row bank T tol row) ->
  cand_row c = row /\
  ((r_total_amount row == 0 /\ T == 0 /\ diff_ratio c = 0) \/
   (~ r_total_amount row == 0 /\
    diff_ratio c = ratio_of T (r_total_amount row) /\
    ratio_of T (r_total_amount row) <= tol)).
Proof.
  unfold check_row.
  destruct (Qeq_bool (r_total_amount row) 0) eqn:E0; simpl.
  - destruct (Qeq_bool T 0) eqn:ET; simpl.
    + intros [<-|[]]. simpl. split; [reflexivity|left].
      apply Qeq_bool_iff in E0, ET. auto.
    + intros [].
  - apply Qeq_bool_false in E0.
    destruct (Qle_bool _ tol) eqn:El; simpl.
    + intros [<-|[]]. simpl. split; [reflexivity|right].
      apply Qle_bool_iff in El. auto.
    + intros [].
Qed.

Lemma check_row_similar bank T tol row :
  similar_totals T tol (r_total_amount row) ->
  exists c, check_row bank T tol row = [c] /\ cand_row c = row /\
            bank_match c = String.eqb (r_bank row) bank /\
            (r_total_amount row == 0 -> diff_ratio c = 0) /\
            (~ r_total_amount row == 0 ->
             diff_ratio c = ratio_of T (r_total_amount row)).
Proof.
  unfold check_row. intros [[H0 HT]|[Hn Hle]].
  - apply Qeq_bool_iff in H0 as E0. apply Qeq_bool_iff in HT as ET.
    rewrite E0, ET. simpl. eexists. split; [reflexivity|]. simpl.
    repeat split; auto. intro Hc. contradiction.
  - apply Qeq_bool_false in Hn as E0. rewrite E0. simpl.
    apply Qle_bool_iff in Hle as El. rewrite El.
    eexists. split; [reflexivity|]. simpl.
    repeat split; auto. intro Hc. contradiction.
Qed.

Lemma select_period_In db period s :
  In s (statements db) -> s_period s = period ->
  In (select_row db s) (select_period db period).
Proof.
  intros Hin Hp. unfold select_period. apply in_map.
  apply filter_In. split; [assumption|]. now apply String.eqb_eq.
Qed.

(** A stored statement of the period is returned exactly when its total is
    similar to the incoming one. *)
Lemma includes_iff db bank period T tol s :
  In s (statements db) -> s_period s = period ->
  (includes db (find_similar_statement db bank period T tol) s <->
   similar_totals T tol (stored_total db (s_id s))).
Proof.
  intros Hin Hp. unfold includes, find_similar_statement. split.
  - intros (c & Hc & Hrow).
    apply in_flat_map in Hc as (row & _ & Hc).
    apply check_row_In in Hc as (Hcr & Hcases).
    assert (Er : r_total_amount row = stored_total db (s_id s)).
    { rewrite <- Hcr, Hrow. reflexivity. }
    rewrite Er in Hcases. unfold similar_totals.
    destruct Hcases as [(H0 & HT & _)|(Hn & _ & Hle)]; auto.
  - intro Hsim.
    destruct (check_row_similar bank T tol (select_row db s) Hsim)
      as (c & Ec & Hcr & _).
    exists c. split; [|assumption].
    apply in_flat_map. exists (select_row db s). split.
    + now apply select_period_In.
    + rewrite Ec. now left.
Qed.




Lemma ratio_of_zero_incoming T S :
  T == 0 -> ratio_of T S == Qabs S / Qmax (Qabs S) 1.
Proof.
  intro E. unfold ratio_of. rewrite E.
  assert (H : 0 - S == - S) by ring.
  rewrite H, Qabs_opp. reflexivity.
Qed.

Lemma ratio_of_zero_incoming_large T S :
  T == 0 -> 1 <= S -> ratio_of T S == 1.
Proof.
  intros E HS. rewrite (ratio_of_zero_incoming _ _ E).
  assert (Hpos : 0 <= S) by lra.
  rewrite (Qabs_pos _ Hpos), (Q.max_l _ _ HS).
  field. intro Hz. lra.
Qed.

(** Against C4 as stated. A stored total of 1/100 against an incoming total
    of zero: exactly one of the two is zero, and the statement is returned
    at the default tolerance. *)
Lemma zero_vs_nonzero_counterexample :
  In Sample.january (statements (Sample.db_total (1 # 100))) /\
  ~ stored_total (Sample.db_total (1 # 100)) (s_id Sample.january) == 0 /\
  includes (Sample.db_total (1 # 100))
    (find_similar_statement (Sample.db_total (1 # 100)) "KTB Visa" "2026-01"
                            0 default_tolerance) Sample.january.
Proof.
  split; [simpl; left; reflexivity|].
  split; [vm_compute; discriminate|].
  eexists. split; [vm_compute; left; reflexivity|reflexivity].
Qed.

(** C4, as the code has it. Zero against zero is a match with ratio 0.0 at
    every tolerance; a zero stored total never matches a nonzero incoming
    total; a nonzero stored total [S] matches an incoming total of zero
    exactly when [|S| / max(|S|, 1) <= tolerance], hence never when
    [S >= 1] and the tolerance is below 1. *)
Theorem find_similar_statement_zero_totals db bank period T tol s :
  In s (statements db) -> s_period s = period ->
  (stored_total db (s_id s) == 0 -> T == 0 ->
   exists c, In c (find_similar_statement db bank period T tol) /\
             cand_row c = select_row db s /\ diff_ratio c = 0) /\
  (stored_total db (s_id s) == 0 -> ~ T == 0 ->
   ~ includes db (find_similar_statement db bank period T tol) s) /\
  (~ stored_total db (s_id s) == 0 -> T == 0 ->
   (includes db (find_similar_statement db bank period T tol) s <->
    Qabs (stored_total db (s_id s))
      / Qmax (Qabs (stored_total db (s_id s))) 1 <= tol)) /\
  (T == 0 -> 1 <= stored_total db (s_id s) -> tol < 1 ->
   ~ includes db (find_similar_statement db bank period T tol) s).
Proof.
  intros Hin Hp. split; [|split; [|split]].
  - intros H0 HT.
    destruct (check_row_similar bank T tol (select_row db s))
      as (c & Ec & Hcr & _ & Hd & _).
    { left. split; assumption. }
    exists c. repeat split; [|assumption|apply Hd; assumption].
    unfold find_similar_statement. apply in_flat_map.
    exists (select_row db s). split.
    + now apply select_period_In.
    + rewrite Ec. now left.
  - intros H0 HT Hinc.
    apply (includes_iff db bank period T tol s Hin Hp) in Hinc.
    destruct Hinc as [[_ HT']|[Hn _]]; contradiction.
  - intros Hn HT. rewrite (includes_iff db bank period T tol s Hin Hp).
    unfold similar_totals. rewrite (ratio_of_zero_incoming _ _ HT). split.
    + intros [[H0 _]|[_ Hle]]; [contradiction|assumption].
    + intro Hle. right. split; assumption.
  - intros HT HS Htol Hinc.
    apply (includes_iff db bank period T tol s Hin Hp) in Hinc.
    destruct Hinc as [[H0 _]|[_ Hle]]; [lra|].
    rewrite (ratio_of_zero_incoming_large _ _ HT HS) in Hle. lra.
Qed.

Lemma find_similar_statement_zero_totals_witness :
  ~ includes (Sample.db_total 1000)
      (find_similar_statement (Sample.db_total 1000) "KTB Visa" "2026-01"
                              0 default_tolerance) Sample.january.
Proof.
  apply (find_similar_statement_zero_totals (Sample.db_total 1000) "KTB Visa"
           "2026-01" 0 default_tolerance Sample.january).
  - simpl. left. reflexivity.
  - reflexivity.
  - reflexivity.
  - vm_compute. discriminate.
  - reflexivity.
Defined.

(** ** Transaction overlap detector *)

Section Counting.

Context {A : Type}.

Lemma filter_and_length_le (p q : A -> bool) l :
  (List.length (filter (fun x => p x && q x) l) <= List.length (filter p l))%nat.
Proof.
  induction l as [|x l IH]; simpl; [lia|].
  destruct (p x), (q x); simpl; lia.
Qed.

Lemma filter_and_length_eq (p q : A -> bool) l :
  List.length (filter (fun x => p x && q x) l) = List.length (filter p l) <->
  (forall x, In x l -> p x = true -> q x = true).
Proof.
  induction l as [|x l IH]; simpl.
  - split; [intros _ y []|reflexivity].
  - pose proof (filter_and_length_le p q l) as Hle.
    destruct (p x) eqn:Ep, (q x) eqn:Eq; simpl.
    + split.
      * intros H y [<-|Hy] Hp; [assumption|].
        apply IH; [lia|assumption|assumption].
      * intro H. f_equal. apply IH. intros y Hy. apply H. now right.
    + split; [lia|].
      intro H. specialize (H x (or_introl eq_refl) Ep). congruence.
    + rewrite IH. split.
      * intros H y [<-|Hy] Hp; [congruence|now apply H].
      * intros H y Hy. apply H. now right.
    + rewrite IH. split.
      * intros H y [<-|Hy] Hp; [congruence|now apply H].
      * intros H y Hy. apply H. now right.
Qed.

Lemma filter_length_zero (p : A -> bool) l :
  List.length (filter p l) = 0%nat <-> (forall x, In x l -> p x = false).
Proof.
  induction l as [|x l IH]; simpl.
  - split; [intros _ y []|reflexivity].
  - destruct (p x) eqn:Ep; simpl.
    + split; [discriminate|].
      intro H. specialize (H x (or_introl eq_refl)). congruence.
    + rewrite IH. split.
      * intros H y [<-|Hy]; [assumption|now apply H].
      * intros H y Hy. apply H. now right.
Qed.

End Counting.

Lemma existsb_iff {A} (f : A -> bool) l :
  existsb f l = true <-> exists x, In x l /\ f x = true.
Proof. apply existsb_exists. Qed.

Lemma within_slack_lt stored param :
  within_slack stored param = true <-> Qabs (stored - param) < 1.
Proof. unfold within_slack. apply Qltb_lt. Qed.

Lemma exact_iff db t :
  exact db t = true <-> exists r, In r (transactions db) /\ exact_match t r.
Proof.
  unfold exact, fetchone, exact_where, exact_match.
  rewrite existsb_exists. split.
  - intros (r & Hr & H). exists r. split; [assumption|].
    apply andb_true_iff in H as [H Hs]. apply andb_true_iff in H as [Hd Hx].
    apply sql_text_eq_true in Hd, Hx. apply within_slack_lt in Hs. auto.
  - intros (r & Hr & Hd & Hx & Hs). exists r. split; [assumption|].
    rewrite !andb_true_iff, !sql_text_eq_true, within_slack_lt. auto.
Qed.

Lemma soft_iff db t :
  soft db t = true <-> exists r, In r (transactions db) /\ soft_match t r.
Proof.
  unfold soft, fetchone, soft_where, soft_match.
  rewrite existsb_exists. split.
  - intros (r & Hr & H). exists r. split; [assumption|].
    apply andb_true_iff in H as [Hd Hs].
    apply sql_text_eq_true in Hd. apply within_slack_lt in Hs. auto.
  - intros (r & Hr & Hd & Hs). exists r. split; [assumption|].
    rewrite andb_true_iff, sql_text_eq_true, within_slack_lt. auto.
Qed.

Lemma exact_match_soft t r : exact_match t r -> soft_match t r.
Proof. intros (Hd & _ & Hs). split; assumption. Qed.

Lemma exact_soft db t : exact db t = true -> soft db t = true.
Proof.
  rewrite exact_iff, soft_iff. intros (r & Hr & H).
  exists r. split; [assumption|]. now apply exact_match_soft.
Qed.

Lemma skip_iff t : Qle_bool (float_amount t) 0 = negb (positive t).
Proof. unfold positive, Qltb. now rewrite negb_involutive. Qed.

Lemma step_positive db acc t :
  positive t = true ->
  step db acc t = ((fst acc + b2n (exact db t))%nat,
                   (snd acc + b2n (soft db t))%nat).
Proof.
  intro Hp. unfold step. rewrite skip_iff, Hp. simpl.
  destruct (exact db t), (soft db t); simpl; f_equal; lia.
Qed.

Lemma step_skipped db acc t : positive t = false -> step db acc t = acc.
Proof. intro Hp. unfold step. now rewrite skip_iff, Hp. Qed.

Lemma fold_step db txs acc :
  fold_left (step db) txs acc =
  ((fst acc + List.length (filter (fun t => positive t && exact db t) txs))%nat,
   (snd acc + List.length (filter (fun t => positive t && soft db t) txs))%nat).
Proof.
  revert acc. induction txs as [|t txs IH]; intro acc; simpl.
  - destruct acc. simpl. f_equal; lia.
  - rewrite IH. destruct (positive t) eqn:Hp.
    + rewrite (step_positive _ _ _ Hp). simpl.
      destruct (exact db t), (soft db t); simpl; f_equal; lia.
    + rewrite (step_skipped _ _ _ Hp). reflexivity.
Qed.

Lemma count_loop_counts db txs :
  count_loop db txs =
  (List.length (filter (fun t => positive t && exact db t) txs),
   List.length (filter (fun t => positive t && soft db t) txs)).
Proof. unfold count_loop. now rewrite fold_step. Qed.

(** The result, by whether a positive-amount candidate exists. *)
Lemma find_overlapping_transactions_cases db txs :
  let p := List.length (filter positive txs) in
  let e := List.length (filter (fun t => positive t && exact db t) txs) in
  let s := List.length (filter (fun t => positive t && soft db t) txs) in
  (p = 0%nat /\
   find_overlapping_transactions db txs =
   {| exact_count := 0; soft_count := 0; overlap_ratio := 0;
      total := List.length txs; positive_total := None |}) \/
  (p <> 0%nat /\
   find_overlapping_transactions db txs =
   {| exact_count := e; soft_count := s; overlap_ratio := Qnat s / Qnat p;
      total := List.length txs; positive_total := Some p |}).
Proof.
  intros p e s. unfold find_overlapping_transactions.
  destruct txs as [|t txs].
  - left. split; reflexivity.
  - rewrite count_loop_counts. fold p e s.
    destruct (Nat.eqb p 0) eqn:E.
    + left. apply Nat.eqb_eq in E. split; [assumption|reflexivity].
    + right. apply Nat.eqb_neq in E. split; [assumption|reflexivity].
Qed.

Lemma counts_exact_soft db txs :
  exact_count (find_overlapping_transactions db txs) =
    List.length (filter (fun t => positive t && exact db t) txs) /\
  soft_count (find_overlapping_transactions db txs) =
    List.length (filter (fun t => positive t && soft db t) txs).
Proof.
  destruct (find_overlapping_transactions_cases db txs) as [[Hp ->]|[Hp ->]];
    simpl; [|split; reflexivity].
  pose proof (filter_and_length_le positive (exact db) txs).
  pose proof (filter_and_length_le positive (soft db) txs).
  split; lia.
Qed.

Lemma Qnat_le a b : (a <= b)%nat -> Qnat a <= Qnat b.
Proof.
  intro H. unfold Qnat. rewrite <- Zle_Qle. lia.
Qed.

Lemma Qnat_pos p : p <> 0%nat -> 0 < Qnat p.
Proof.
  intro H. unfold Qnat. change 0 with (inject_Z 0). rewrite <- Zlt_Qlt. lia.
Qed.

Lemma Qnat_inj a b : Qnat a == Qnat b <-> a = b.
Proof.
  unfold Qnat. rewrite inject_Z_injective. lia.
Qed.

Lemma Qdiv_eq_iff x y z : 0 < y -> (x / y == z <-> x == z * y).
Proof.
  intro Hy. assert (Hn : ~ y == 0) by (intro E; lra).
  split; intro H.
  - rewrite <- H. field. assumption.
  - rewrite H. field. assumption.
Qed.

Lemma ratio_zero_iff s p : p <> 0%nat -> (Qnat s / Qnat p == 0 <-> s = 0%nat).
Proof.
  intro Hp. rewrite (Qdiv_eq_iff _ _ _ (Qnat_pos _ Hp)).
  rewrite <- (Qnat_inj s 0). split; intro H.
  - rewrite H. change (Qnat 0) with 0. ring.
  - rewrite H. change (Qnat 0) with 0. ring.
Qed.

Lemma ratio_one_iff s p : p <> 0%nat -> (Qnat s / Qnat p == 1 <-> s = p).
Proof.
  intro Hp. rewrite (Qdiv_eq_iff _ _ _ (Qnat_pos _ Hp)).
  rewrite <- (Qnat_inj s p). split; intro H.
  - rewrite H. ring.
  - rewrite H. ring.
Qed.

Lemma ratio_bounds s p :
  p <> 0%nat -> (s <= p)%nat -> 0 <= Qnat s / Qnat p /\ Qnat s / Qnat p <= 1.
Proof.
  intros Hp Hle. pose proof (Qnat_pos _ Hp) as Hpos.
  pose proof (Qnat_le _ _ Hle) as Hsp.
  pose proof (Qnat_le 0 s (Nat.le_0_l s)) as Hs0. change (Qnat 0) with 0 in Hs0.
  split.
  - apply Qle_shift_div_l; [assumption|]. lra.
  - apply Qle_shift_div_r; [assumption|]. lra.
Qed.




(** C6. The overlap ratio lies in [0, 1]; when the batch has a
    positive-amount candidate, the ratio is 0 exactly when none of them
    soft-matches a stored transaction and 1 exactly when each of them
    does. *)
Theorem overlap_ratio_range db txs :
  let res := find_overlapping_transactions db txs in
  0 <= overlap_ratio res /\ overlap_ratio res <= 1 /\
  ((exists t, In t txs /\ positive t = true) ->
   (overlap_ratio res == 0 <->
      forall t, In t txs -> positive t = true ->
        ~ exists r, In r (transactions db) /\ soft_match t r) /\
   (overlap_ratio res == 1 <->
      forall t, In t txs -> positive t = true ->
        exists r, In r (transactions db) /\ soft_match t r)).
Proof.
  intro res. subst res.
  pose proof (filter_and_length_le positive (soft db) txs) as Hle.
  destruct (find_overlapping_transactions_cases db txs) as [[Hp ->]|[Hp ->]];
    simpl.
  - split; [lra|]. split; [lra|].
    intros (t & Ht & Hpos). exfalso.
    rewrite filter_length_zero in Hp. specialize (Hp t Ht). congruence.
  - destruct (ratio_bounds _ _ Hp Hle) as [H0 H1].
    split; [assumption|]. split; [assumption|]. intros _. split.
    + rewrite (ratio_zero_iff _ _ Hp), filter_length_zero. split.
      * intros H t Ht Hpos Hex. apply soft_iff in Hex.
        specialize (H t Ht). rewrite Hpos, Hex in H. discriminate.
      * intros H t Ht. destruct (positive t) eqn:Hpos; [|reflexivity].
        destruct (soft db t) eqn:Hs; [|reflexivity].
        exfalso. apply (H t Ht Hpos). now apply soft_iff.
    + rewrite (ratio_one_iff _ _ Hp), filter_and_length_eq. split.
      * intros H t Ht Hpos. apply soft_iff. now apply H.
      * intros H t Ht Hpos. apply soft_iff. now apply H.
Qed.

Lemma overlap_ratio_range_witness :
  let t := Sample.candidate_tx "2026-01-15" "GROCERY" (1005 # 10) in
  overlap_ratio (find_overlapping_transactions (Sample.db_total 101) [t]) == 1 <->
  (forall t', In t' [t] -> positive t' = true ->
     exists r, In r (transactions (Sample.db_total 101)) /\ soft_match t' r).
Proof.
  intro t.
  apply (overlap_ratio_range (Sample.db_total 101) [t]).
  exists t. split; [left|]; reflexivity.
Defined.

(** Against C7 as stated. The empty batch: the returned dict has no count
    of positive-amount candidates. *)
Lemma positive_total_counterexample :
  positive_total (find_overlapping_transactions (Sample.db_total 101) []) = None /\
  positive_total (find_overlapping_transactions (Sample.db_total 101) [])
    <> Some (List.length (filter positive [])).
Proof. split; [reflexivity|discriminate]. Qed.

(** C7, as the code has it. The result always carries the exact count, the
    soft count, the ratio and the size of the batch; it carries the number
    of positive-amount candidates exactly when there is one. Without a
    positive-amount candidate both counts are 0 and the ratio is 0.0,
    whatever the size of the batch. *)
Theorem find_overlapping_transactions_result db txs :
  let res := find_overlapping_transactions db txs in
  let p := List.length (filter positive txs) in
  total res = List.length txs /\
  exact_count res = List.length (filter (fun t => positive t && exact db t) txs) /\
  soft_count res = List.length (filter (fun t => positive t && soft db t) txs) /\
  (p <> 0%nat ->
   positive_total res = Some p /\
   overlap_ratio res = Qnat (soft_count res) / Qnat p) /\
  (p = 0%nat ->
   positive_total res = None /\ exact_count res = 0%nat /\
   soft_count res = 0%nat /\ overlap_ratio res = 0).
Proof.
  intros res p. subst res.
  destruct (counts_exact_soft db txs) as [He Hs].
  split.
  { destruct (find_overlapping_transactions_cases db txs) as [[_ ->]|[_ ->]];
      reflexivity. }
  split; [assumption|]. split; [assumption|].
  destruct (find_overlapping_transactions_cases db txs) as [[Hp E]|[Hp E]];
    fold p in Hp; (split; intro Hp'; [|]); try contradiction; try congruence.
  - rewrite E. simpl. auto.
  - rewrite E. simpl. auto.
Qed.

Lemma find_overlapping_transactions_result_witness :
  let t := Sample.candidate_tx "2026-01-15" "REFUND" (- (30 # 1)) in
  let res := find_overlapping_transactions (Sample.db_total 101) [t; t] in
  total res = 2%nat /\ positive_total res = None /\ exact_count res = 0%nat /\
  soft_count res = 0%nat /\ overlap_ratio res = 0.
Proof.
  intros t res.
  destruct (find_overlapping_transactions_result (Sample.db_total 101) [t; t])
    as (Ht & _ & _ & _ & H0).
  split; [exact Ht|]. apply H0. reflexivity.
Defined.

(** C10. The exact count is at most the soft count, which is at most the
    number of positive-amount candidates: a stored transaction that meets
    the exact condition meets the soft one, and a candidate adds at most
    one to each count. *)
Theorem overlap_counts_ordered db txs :
  let res := find_overlapping_transactions db txs in
  (exact_count res <= soft_count res)%nat /\
  (soft_count res <= List.length (filter positive txs))%nat /\
  (forall t r, exact_match t r -> soft_match t r) /\
  (forall acc t,
     (fst acc <= fst (step db acc t) <= S (fst acc))%nat /\
     (snd acc <= snd (step db acc t) <= S (snd acc))%nat).
Proof.
  intro res. subst res.
  destruct (counts_exact_soft db txs) as [-> ->].
  split; [|split; [|split]].
  - clear. induction txs as [|t txs IH]; simpl; [lia|].
    destruct (positive t); simpl; [|assumption].
    destruct (exact db t) eqn:He.
    + rewrite (exact_soft _ _ He). simpl. lia.
    + destruct (soft db t); simpl; lia.
  - apply filter_and_length_le.
  - apply exact_match_soft.
  - intros acc t. destruct (positive t) eqn:Hp.
    + rewrite (step_positive _ _ _ Hp). simpl.
      destruct (exact db t), (soft db t); simpl; lia.
    + rewrite (step_skipped _ _ _ Hp). lia.
Qed.

Lemma overlap_counts_ordered_witness :
  let t := Sample.candidate_tx "2026-01-15" "TMN 7-11 BANGKOK TH" (1005 # 10) in
  let r := Sample.stored_tx 1 1 "2026-01-15" "TMN 7-11 BANGKOK TH" 101 in
  soft_match t r.
Proof.
  intros t r.
  apply (overlap_counts_ordered (Sample.db_total 101) [t]).
  split; [exists "2026-01-15"%string; split; reflexivity|].
  split; [exists "TMN 7-11 BANGKOK TH"%string; split; reflexivity|].
  reflexivity.
Defined.

(** ** Fingerprint index *)


Lemma find_none_iff {A} (p : A -> bool) l :
  find p l = None <-> forall y, In y l -> p y = false.
Proof.
  induction l as [|a l IH]; simpl.
  - split; [intros _ y []|reflexivity].
  - destruct (p a) eqn:Ea.
    + split; [discriminate|].
      intro H. specialize (H a (or_introl eq_refl)). congruence.
    + rewrite IH. split.
      * intros H y [<-|Hy]; auto.
      * intros H y Hy. apply H. now right.
Qed.

Lemma find_filter {A} (p q : A -> bool) l :
  (forall x, p x = true -> q x = true) ->
  find p (filter q l) = find p l.
Proof.
  intro H. induction l as [|a l IH]; simpl; [reflexivity|].
  destruct (q a) eqn:Eq; simpl.
  - now rewrite IH.
  - destruct (p a) eqn:Ep; [|assumption].
    apply H in Ep. congruence.
Qed.

Lemma contains_holds h s :
  h <> EmptyString -> (contains h s = true <-> holds h s).
Proof.
  intro Hne. unfold contains, holds. rewrite existsb_exists.
  destruct (s_file_hash s) as [joined|] eqn:E.
  - split.
    + intros (x & Hx & Heq). apply String.eqb_eq in Heq. subst x.
      exists joined. split; [reflexivity|assumption].
    + intros (j & [= <-] & Hin). exists h. split; [assumption|].
      apply String.eqb_refl.
  - split.
    + intros (x & Hx & Heq). apply String.eqb_eq in Heq. subst x.
      destruct Hx as [Hx|[]]. vm_compute in Hx. congruence.
    + intros (j & Hj & _). discriminate.
Qed.

Lemma contains_hashed h s :
  h <> EmptyString -> contains h s = true ->
  match s_file_hash s with Some _ => true | None => false end = true.
Proof.
  intros Hne Hc. apply (contains_holds _ _ Hne) in Hc as (j & -> & _).
  reflexivity.
Qed.

Lemma find_duplicate_statement_find db h :
  h <> EmptyString ->
  fst (find_duplicate_statement db h) =
  option_map project (find (contains h) (statements db)).
Proof.
  intro Hne. unfold find_duplicate_statement.
  apply String.eqb_neq in Hne as E. rewrite E. simpl.
  unfold select_hashed. apply String.eqb_neq in E.
  rewrite find_filter; [reflexivity|].
  intros s. apply contains_hashed. assumption.
Qed.

Lemma split_comma_free s : comma_free s = true -> split comma s = [s].
Proof.
  induction s as [|c s IH]; simpl; [reflexivity|].
  intro H. apply andb_true_iff in H as [Hc Hs].
  apply negb_true_iff in Hc. rewrite Hc, (IH Hs). reflexivity.
Qed.

Lemma split_append s rest :
  comma_free s = true ->
  split comma (s ++ String comma rest) = s :: split comma rest.
Proof.
  induction s as [|c s IH]; simpl.
  - intros _. reflexivity.
  - intro H. apply andb_true_iff in H as [Hc Hs].
    apply negb_true_iff in Hc. rewrite Hc, (IH Hs). reflexivity.
Qed.

Lemma split_concat hs :
  hs <> [] -> Forall (fun h => comma_free h = true) hs ->
  split comma (String.concat (String comma EmptyString) hs) = hs.
Proof.
  induction hs as [|h hs IH]; [congruence|].
  intros _ HF. inversion HF as [|? ? Hh HF']; subst.
  destruct hs as [|h' hs].
  - simpl. now apply split_comma_free.
  - change (String.concat (String comma EmptyString) (h :: h' :: hs))
      with (h ++ String comma
              (String.concat (String comma EmptyString) (h' :: hs)))%string.
    rewrite (split_append _ _ Hh), IH; [reflexivity|discriminate|assumption].
Qed.

(** A statement saved from clean fingerprints stores exactly those. *)
Lemma stored_hash_str hs :
  hs <> [] -> Forall clean hs -> stored (hash_str (Some hs)) = hs.
Proof.
  intros Hne HF. unfold stored, hash_str.
  destruct hs as [|h hs]; [congruence|].
  change (String.concat "," (h :: hs))
    with (String.concat (String comma EmptyString) (h :: hs)).
  rewrite split_concat; [|discriminate|].
  - clear Hne. induction HF as [|x l [_ Hx] _ IH]; simpl; [reflexivity|].
    now rewrite Hx, IH.
  - eapply Forall_impl; [|exact HF]. intros x [Hx _]. exact Hx.
Qed.



(** ** Consensus aggregator *)

Section VoteFacts.

Context {A : Type} (eqb : A -> A -> bool).
Hypothesis eqb_eq : forall x y, eqb x y = true <-> x = y.

Lemma eqb_refl' x : eqb x x = true.
Proof. now apply eqb_eq. Qed.

Lemma eqb_neq' x y : x <> y -> eqb x y = false.
Proof.
  intro H. destruct (eqb x y) eqn:E; [|reflexivity].
  apply eqb_eq in E. contradiction.
Qed.

Lemma occ_snoc x l a :
  occ eqb x (l ++ [a]) = (occ eqb x l + (if eqb x a then 1 else 0))%nat.
Proof.
  unfold occ. rewrite filter_app, length_app. simpl.
  destruct (eqb x a); reflexivity.
Qed.

Lemma occ_In x l : occ eqb x l <> 0%nat -> In x l.
Proof.
  unfold occ. induction l as [|a l IH]; simpl; [congruence|].
  destruct (eqb x a) eqn:E.
  - intros _. left. symmetry. now apply eqb_eq.
  - intro H. right. now apply IH.
Qed.

Lemma occ_notin x l : ~ In x l -> occ eqb x l = 0%nat.
Proof.
  intro H. destruct (occ eqb x l) eqn:E; [reflexivity|].
  exfalso. apply H, occ_In. lia.
Qed.

Lemma Counter_snoc l a : Counter eqb (l ++ [a]) = incr eqb a (Counter eqb l).
Proof. unfold Counter. now rewrite fold_left_app. Qed.

(** [incr] bumps the entry of a key already counted and appends a new key
    at the end. *)
Lemma incr_cases a c :
  (exists c1 m c2, c = c1 ++ (a, m) :: c2 /\ ~ In a (map fst c1) /\
                   incr eqb a c = c1 ++ (a, S m) :: c2) \/
  (~ In a (map fst c) /\ incr eqb a c = c ++ [(a, 1%nat)]).
Proof.
  induction c as [|[y n] c IH]; simpl.
  - right. split; [intros []|reflexivity].
  - destruct (eqb y a) eqn:E.
    + apply eqb_eq in E. subst y. left.
      exists [], n, c. repeat split. intros [].
    + assert (Hya : y <> a).
      { intro H. apply eqb_eq in H. congruence. }
      destruct IH as [(c1 & m & c2 & -> & Hn & ->)|[Hn ->]].
      * left. exists ((y, n) :: c1), m, c2. repeat split.
        simpl. intros [H|H]; [contradiction|now apply Hn].
      * right. split; [|reflexivity].
        intros [H|H]; [contradiction|now apply Hn].
Qed.

Lemma NoDup_snoc (l : list A) a : NoDup l -> ~ In a l -> NoDup (l ++ [a]).
Proof.
  induction 1 as [|x l Hx Hnd IH]; intro Ha; simpl.
  - constructor; [intros []|constructor].
  - constructor.
    + intro H. apply in_app_or in H as [H|[H|[]]]; [contradiction|].
      apply Ha. now left.
    + apply IH. intro H. apply Ha. now right.
Qed.

Lemma counted_key_observed l c x :
  counted eqb l c -> In x (map fst c) -> In x l.
Proof.
  intros (_ & _ & _ & Hord) Hx.
  apply in_split in Hx as (k1 & k2 & E).
  destruct (Hord _ _ _ E) as (l1 & l2 & -> & _).
  apply in_elt.
Qed.

Lemma counted_bump l a c1 m c2 :
  counted eqb l (c1 ++ (a, m) :: c2) ->
  counted eqb (l ++ [a]) (c1 ++ (a, S m) :: c2).
Proof.
  intros (Hnd & Hcnt & Hcov & Hord).
  assert (Ek : map fst (c1 ++ (a, S m) :: c2) = map fst (c1 ++ (a, m) :: c2)).
  { rewrite !map_app. reflexivity. }
  assert (Hother : forall x n, In (x, n) c1 \/ In (x, n) c2 -> x <> a).
  { intros x n Hx ->. rewrite map_app in Hnd. simpl in Hnd.
    apply NoDup_remove_2 in Hnd. apply Hnd. apply in_or_app.
    destruct Hx as [Hx|Hx]; [left|right];
      apply (in_map fst) in Hx; exact Hx. }
  split; [now rewrite Ek|]. split; [|split].
  - intros x n Hx. rewrite occ_snoc.
    apply in_app_or in Hx as [Hx|[Hx|Hx]].
    + rewrite (eqb_neq' _ _ (Hother x n (or_introl Hx))).
      rewrite Nat.add_0_r. apply Hcnt. apply in_or_app. now left.
    + injection Hx as <- <-. rewrite eqb_refl'.
      rewrite <- (Hcnt a m); [lia|]. apply in_elt.
    + rewrite (eqb_neq' _ _ (Hother x n (or_intror Hx))).
      rewrite Nat.add_0_r. apply Hcnt. apply in_or_app. right. now right.
  - intros x Hx. rewrite Ek. apply in_app_or in Hx as [Hx|[<-|[]]].
    + now apply Hcov.
    + rewrite map_app. apply in_elt.
  - intros k1 x k2 E. rewrite Ek in E.
    destruct (Hord _ _ _ E) as (l1 & l2 & -> & Hn & Hb).
    exists l1, (l2 ++ [a]). split; [|split; assumption].
    now rewrite <- app_assoc.
Qed.

Lemma counted_new l a c :
  counted eqb l c -> ~ In a (map fst c) ->
  counted eqb (l ++ [a]) (c ++ [(a, 1%nat)]).
Proof.
  intros (Hnd & Hcnt & Hcov & Hord) Hn.
  assert (Ek : map fst (c ++ [(a, 1%nat)]) = map fst c ++ [a]).
  { now rewrite map_app. }
  assert (Hal : ~ In a l) by (intro H; apply Hn, Hcov, H).
  split; [|split; [|split]].
  - rewrite Ek. now apply NoDup_snoc.
  - intros x n Hx. rewrite occ_snoc. apply in_app_or in Hx as [Hx|[Hx|[]]].
    + assert (Hxa : x <> a).
      { intros ->. apply Hn. apply (in_map fst) in Hx. exact Hx. }
      rewrite (eqb_neq' _ _ Hxa), Nat.add_0_r. now apply Hcnt.
    + injection Hx as <- <-. rewrite eqb_refl', (occ_notin _ _ Hal).
      reflexivity.
  - intros x Hx. rewrite Ek. apply in_or_app.
    apply in_app_or in Hx as [Hx|[<-|[]]]; [left; now apply Hcov|].
    right. now left.
  - intros k1 x k2 E. rewrite Ek in E.
    destruct k2 as [|z k2] using rev_ind.
    + apply app_inj_tail in E as [<- <-].
      exists l, []. repeat split; auto.
    + clear IHk2.
      change (k1 ++ x :: k2 ++ [z]) with (k1 ++ (x :: k2) ++ [z]) in E.
      rewrite app_assoc in E. apply app_inj_tail in E as [E <-].
      destruct (Hord _ _ _ E) as (l1 & l2 & -> & Hx & Hb).
      exists l1, (l2 ++ [a]). split; [|split; assumption].
      now rewrite <- app_assoc.
Qed.

Lemma Counter_counted l : counted eqb l (Counter eqb l).
Proof.
  induction l as [|a l IH] using rev_ind.
  - split; [constructor|]. split; [intros x n []|].
    split; [intros x []|]. intros [|] x k2 E; discriminate.
  - rewrite Counter_snoc.
    destruct (incr_cases a (Counter eqb l))
      as [(c1 & m & c2 & E & _ & ->)|[Hn ->]].
    + rewrite E in IH. now apply counted_bump.
    + now apply counted_new.
Qed.

(** [max_item] returns the first of the items with the largest count. *)
Lemma max_item_first (best : A * nat) (items : list (A * nat)) :
  exists pre post,
    best :: items = pre ++ max_item best items :: post /\
    (forall it, In it pre -> (snd it < snd (max_item best items))%nat) /\
    (forall it, In it post -> (snd it <= snd (max_item best items))%nat).
Proof.
  revert best. induction items as [|it rest IH]; intro best; simpl.
  - exists [], []. repeat split; intros it [].
  - destruct (Nat.ltb (snd best) (snd it)) eqn:E.
    + apply Nat.ltb_lt in E.
      destruct (IH it) as (pre & post & Eq & Hpre & Hpost).
      exists (best :: pre), post. split; [now rewrite Eq|]. split; [|assumption].
      intros x [<-|Hx]; [|now apply Hpre].
      destruct pre as [|p pre].
      * simpl in Eq. injection Eq as <- _. assumption.
      * simpl in Eq. injection Eq as <- _.
        specialize (Hpre it (or_introl eq_refl)). lia.
    + apply Nat.ltb_ge in E.
      destruct (IH best) as (pre & post & Eq & Hpre & Hpost).
      destruct pre as [|p pre].
      * simpl in Eq. injection Eq as Eb Er.
        exists [], (it :: rest). split; [simpl; now rewrite <- Eb|].
        split; [intros x []|].
        intros x [<-|Hx]; [now rewrite <- Eb|].
        apply Hpost. now rewrite <- Er.
      * simpl in Eq. injection Eq as <- Er.
        exists (best :: it :: pre), post.
        split; [simpl; do 2 f_equal; exact Er|]. split; [|assumption].
        pose proof (Hpre best (or_introl eq_refl)) as Hb.
        intros x [<-|[<-|Hx]]; [assumption|lia|].
        apply Hpre. now right.
Qed.

Lemma vote_nil : vote eqb [] = None.
Proof. reflexivity. Qed.

(** The vote on a non-empty list returns a value, and that value wins. *)
Lemma vote_wins l :
  l <> [] -> exists x, vote eqb l = Some x /\ wins eqb x l.
Proof.
  intro Hne. pose proof (Counter_counted l) as Hc.
  unfold vote, most_common_1.
  destruct (Counter eqb l) as [|it rest] eqn:Ec.
  - exfalso. destruct l as [|a l]; [congruence|].
    destruct Hc as (_ & _ & Hcov & _).
    apply (Hcov a). now left.
  - destruct (max_item_first it rest) as (pre & post & Eq & Hpre & Hpost).
    destruct (max_item it rest) as [x n] eqn:Em. simpl in Hpre, Hpost.
    exists x. split; [reflexivity|].
    rewrite Eq in Hc. pose proof Hc as (Hnd & Hcnt & Hcov & Hord).
    assert (Hn : n = occ eqb x l) by (apply Hcnt, in_elt).
    split.
    + intro y. destruct (occ eqb y l) eqn:Ey; [lia|].
      assert (Hy : In y l) by (apply occ_In; lia).
      apply Hcov in Hy. apply in_map_iff in Hy as ([y' m] & Hf & Hy).
      simpl in Hf. subst y'. rewrite <- Ey, <- (Hcnt y m Hy), <- Hn.
      apply in_app_or in Hy as [Hy|[Hy|Hy]].
      * specialize (Hpre _ Hy). simpl in Hpre. lia.
      * injection Hy as _ <-. lia.
      * specialize (Hpost _ Hy). simpl in Hpost. lia.
    + destruct (Hord (map fst pre) x (map fst post)) as (l1 & l2 & El & Hx & Hb).
      { now rewrite map_app. }
      exists l1, l2. split; [assumption|]. split; [assumption|].
      intros y Hy. apply Hb in Hy.
      apply in_map_iff in Hy as ([y' m] & Hf & Hy). simpl in Hf. subst y'.
      rewrite <- Hn, <- (Hcnt y m); [|apply in_or_app; now left].
      specialize (Hpre _ Hy). simpl in Hpre. assumption.
Qed.

Lemma first_occurrence_unique (b b' a a' : list A) x y :
  b ++ x :: a = b' ++ y :: a' -> ~ In x b' -> ~ In y b -> x = y.
Proof.
  revert b'. induction b as [|z b IH]; intros [|z' b'] E Hx Hy; simpl in E.
  - congruence.
  - injection E as -> _. elim Hx. now left.
  - injection E as -> _. elim Hy. now left.
  - injection E as -> E. apply (IH b' E).
    + intro H. apply Hx. now right.
    + intro H. apply Hy. now right.
Qed.

(** At most one value wins. *)
Lemma wins_unique x y l : wins eqb x l -> wins eqb y l -> x = y.
Proof.
  intros (Hx & b & a & E & Hxb & Hb) (Hy & b' & a' & E' & Hyb & Hb').
  rewrite E in E'. apply (first_occurrence_unique _ _ _ _ _ _ E').
  - intro H. apply Hb' in H. specialize (Hx y). lia.
  - intro H. apply Hb in H. specialize (Hy x). lia.
Qed.

Lemma vote_iff l x : vote eqb l = Some x <-> wins eqb x l.
Proof.
  split.
  - intro H. destruct l as [|a l]; [discriminate|].
    destruct (vote_wins (a :: l)) as (x' & E & Hw); [discriminate|].
    congruence.
  - intro Hw. assert (Hne : l <> []).
    { destruct Hw as (_ & b & a & -> & _). now destruct b. }
    destruct (vote_wins l Hne) as (x' & E & Hw').
    now rewrite (wins_unique _ _ _ Hw Hw').
Qed.

End VoteFacts.

Lemma filter_all {A} (p : A -> bool) l :
  (forall x, In x l -> p x = true) -> filter p l = l.
Proof.
  induction l as [|a l IH]; intro H; simpl; [reflexivity|].
  rewrite (H a (or_introl eq_refl)). f_equal. apply IH.
  intros x Hx. apply H. now right.
Qed.

Lemma names_truthy key pages :
  filter (fun b => truthy (Some b)) (names key pages) = names key pages.
Proof.
  apply filter_all. intros b Hb. unfold names in Hb.
  apply in_flat_map in Hb as ([r|] & _ & Hb); [|destruct Hb].
  destruct (key r) as [s|]; [|destruct Hb].
  destruct (truthy (Some s)) eqn:E; [|destruct Hb].
  destruct Hb as [<-|[]]. exact E.
Qed.

Lemma Counter_nil_iff {A} (eqb : A -> A -> bool) l :
  (forall x y, eqb x y = true <-> x = y) ->
  Counter eqb l = [] <-> l = [].
Proof.
  intro H. split; [|intros ->; reflexivity].
  intro E. destruct l as [|a l]; [reflexivity|].
  destruct (Counter_counted eqb H (a :: l)) as (_ & _ & Hcov & _).
  rewrite E in Hcov. elim (Hcov a). now left.
Qed.

(** The value of [top_bank] or [top_card] from the names read. *)
Lemma top_names key pages :
  (names key pages = [] -> top (names key pages) = Some EmptyString) /\
  (forall b, top (names key pages) = Some b /\ names key pages <> [] <->
             wins String.eqb b (names key pages)).
Proof.
  unfold top. rewrite names_truthy. split.
  - intros ->. reflexivity.
  - intro b. destruct (Counter String.eqb (names key pages)) eqn:Ec.
    + apply (Counter_nil_iff _ _ String.eqb_eq) in Ec. rewrite Ec. split.
      * intros [_ H]. congruence.
      * intros (_ & before & after & E & _). now destruct before.
    + rewrite (vote_iff _ String.eqb_eq). split; [intros [H _]; exact H|].
      intro H. split; [assumption|].
      intro E. rewrite E in Ec. discriminate.
Qed.




(** ** Writers *)

Lemma write_disk {A} (upd : database -> A * database) c :
  disk (snd (write upd c)) = disk c.
Proof.
  unfold write. destruct (fault c) as [[|k]|]; simpl; try reflexivity;
    destruct (upd (view c)); reflexivity.
Qed.

Lemma write_ok {A} (upd : database -> A * database) c :
  accepts (fault c) 1 = true ->
  write upd c =
  (inr (fst (upd (view c))),
   {| disk := disk c; view := snd (upd (view c)); fault := spend (fault c) 1 |}).
Proof.
  unfold write, accepts, spend. destruct (fault c) as [[|k]|]; simpl.
  - discriminate.
  - intros _. destruct (upd (view c)). simpl. now rewrite Nat.sub_0_r.
  - intros _. destruct (upd (view c)). reflexivity.
Qed.

Lemma write_fail {A} (upd : database -> A * database) c :
  accepts (fault c) 1 = false -> write upd c = (inl OperationalError, c).
Proof.
  unfold write, accepts. destruct (fault c) as [[|k]|]; simpl;
    [reflexivity|discriminate|discriminate].
Qed.

Lemma for_each_insert_disk stmt_id bank txs c :
  disk (snd (for_each (fun t => insert_transaction (values_of stmt_id bank t))
                      txs c)) = disk c.
Proof.
  revert c. induction txs as [|t txs IH]; intro c; simpl; [reflexivity|].
  unfold bind at 1. unfold insert_transaction at 1.
  match goal with |- context [write ?u c] =>
    pose proof (write_disk u c) as Hw; destruct (write u c) as [[e|[]] c1] end;
    simpl in Hw |- *.
  - assumption.
  - rewrite IH. assumption.
Qed.

Lemma for_each_insert_ok stmt_id bank txs c :
  accepts (fault c) (List.length txs) = true ->
  for_each (fun t => insert_transaction (values_of stmt_id bank t)) txs c =
  (inr tt, {| disk := disk c; view := with_rows stmt_id bank txs (view c);
              fault := spend (fault c) (List.length txs) |}).
Proof.
  revert c. induction txs as [|t txs IH]; intros c Hacc.
  - simpl. unfold ret, with_rows. simpl. destruct c as [d v f]. simpl.
    f_equal. f_equal.
    + destruct v. simpl. f_equal; [symmetry; apply app_nil_r|lia].
    + destruct f; simpl; [f_equal; lia|reflexivity].
  - simpl for_each. unfold bind at 1. unfold insert_transaction at 1.
    assert (H1 : accepts (fault c) 1 = true).
    { destruct (fault c) as [k|]; simpl in *; [|reflexivity].
      destruct k; [discriminate|reflexivity]. }
    rewrite (write_ok _ _ H1). cbn [fst snd].
    rewrite IH.
    + cbn [disk view fault]. f_equal. f_equal.
      * unfold with_rows. cbn [statements transactions seq_statements
                               seq_transactions List.length new_transactions].
        f_equal.
        -- rewrite <- app_assoc. reflexivity.
        -- lia.
      * destruct (fault c) as [k|]; simpl; [f_equal; lia|reflexivity].
    + cbn [fault]. destruct (fault c) as [k|]; simpl in *; [|reflexivity].
      destruct k; [discriminate|]. simpl.
      rewrite Nat.sub_0_r. exact Hacc.
Qed.

Lemma for_each_insert_fail stmt_id bank txs c :
  accepts (fault c) (List.length txs) = false ->
  fst (for_each (fun t => insert_transaction (values_of stmt_id bank t)) txs c)
  = inl OperationalError.
Proof.
  revert c. induction txs as [|t txs IH]; intros c Hacc.
  - destruct (fault c); simpl in Hacc; discriminate.
  - simpl for_each. unfold bind at 1. unfold insert_transaction at 1.
    destruct (accepts (fault c) 1) eqn:H1.
    + rewrite (write_ok _ _ H1). cbn [fst snd]. apply IH. cbn [fault].
      destruct (fault c) as [k|]; simpl in *; [|discriminate].
      destruct k; [discriminate|]. simpl. rewrite Nat.sub_0_r. exact Hacc.
    + rewrite (write_fail _ _ H1). reflexivity.
Qed.

Lemma accepts_succ f n :
  accepts f (S n) = accepts f 1 && accepts (spend f 1) n.
Proof.
  destruct f as [[|k]|]; simpl; try reflexivity.
  now rewrite Nat.sub_0_r.
Qed.

(** [save_transactions] either commits the statement with all of its rows
    or raises and leaves the database as it was. *)
Lemma save_transactions_cases f now bank filenames txs cutoff_day hashes db :
  save_transactions f now bank filenames txs cutoff_day hashes db =
  if accepts f (S (List.length txs))
  then (inr tt, saved now bank filenames txs cutoff_day hashes db)
  else (inl OperationalError, db).
Proof.
  rewrite accepts_succ.
  unfold save_transactions, with_connection, save_body.
  unfold bind at 1. unfold insert_statement.
  destruct (accepts f 1) eqn:H1; simpl andb.
  - rewrite write_ok; [|exact H1]. cbn [fst snd get_db view disk fault].
    unfold bind at 1.
    destruct (accepts (spend f 1) (List.length txs)) eqn:H2.
    + rewrite for_each_insert_ok; [|exact H2].
      unfold commit, close. cbn [fst snd view disk fault].
      f_equal.
    + match goal with |- context [for_each ?b txs ?c] =>
        pose proof (for_each_insert_fail (seq_statements db + 1) bank txs c H2)
          as Hf;
        pose proof (for_each_insert_disk (seq_statements db + 1) bank txs c)
          as Hd;
        destruct (for_each b txs c) as [[e|[]] c'] end;
        simpl in Hf, Hd; [|discriminate].
      destruct e. unfold close. now rewrite Hd.
  - rewrite write_fail; [|exact H1]. reflexivity.
Qed.

(** C2. [save_transactions] writes the statement and all of its
    transaction rows or nothing. When the storage takes every insert the
    call returns and the database holds the new statement row and one row
    per transaction; when an insert fails the exception reaches the caller
    and the database is the one before the call. *)
Theorem save_transactions_atomic f now bank filenames txs cutoff_day hashes db :
  let out := save_transactions f now bank filenames txs cutoff_day hashes db in
  (out = (inr tt, saved now bank filenames txs cutoff_day hashes db) \/
   out = (inl OperationalError, db)) /\
  (accepts f (S (List.length txs)) = true ->
   fst out = inr tt /\
   statements (snd out) =
     statements db ++ [new_statement now bank filenames txs cutoff_day hashes db] /\
   transactions (snd out) =
     transactions db ++
     new_transactions (seq_transactions db + 1) (seq_statements db + 1) bank txs /\
   List.length (transactions (snd out)) =
     (List.length (transactions db) + List.length txs)%nat) /\
  (forall k, f = Some k -> (k <= List.length txs)%nat ->
   fst out = inl OperationalError /\ snd out = db).
Proof.
  intro out. subst out. rewrite save_transactions_cases.
  split; [|split].
  - destruct (accepts f (S (List.length txs))); [left|right]; reflexivity.
  - intros ->. cbn [fst snd saved statements transactions].
    repeat split. rewrite length_app. f_equal.
    generalize (seq_transactions db + 1)%Z.
    induction txs as [|t txs IH]; intro z; simpl; [reflexivity|].
    now rewrite IH.
  - intros k -> Hk.
    assert (E : accepts (Some k) (S (List.length txs)) = false).
    { simpl. destruct k; [reflexivity|]. apply Nat.leb_gt. lia. }
    rewrite E. split; reflexivity.
Qed.

Lemma save_transactions_atomic_witness :
  let txs := [Sample.candidate_tx "2026-02-03" "GRAB FOOD" (250 # 1);
              Sample.candidate_tx "2026-02-04" "SHOPEE" (990 # 1)] in
  let out := save_transactions (Some 2%nat) Sample.now "KTB Visa" ["feb.pdf"%string]
               txs (Some 20%Z) (Some ["cc33"%string]) (Sample.db_total 1000) in
  fst out = inl OperationalError /\ snd out = Sample.db_total 1000.
Proof.
  intros txs out.
  destruct (save_transactions_atomic (Some 2%nat) Sample.now "KTB Visa"
              ["feb.pdf"%string] txs (Some 20%Z) (Some ["cc33"%string])
              (Sample.db_total 1000)) as (_ & _ & H).
  apply (H 2%nat).
  - reflexivity.
  - simpl. lia.
Defined.

Lemma delete_statement_cases f stmt_id db :
  delete_statement f stmt_id db =
  if accepts f 2 then (inr tt, deleted stmt_id db)
  else (inl OperationalError, db).
Proof.
  destruct f as [[|[|k]]|]; reflexivity.
Qed.

Lemma append_nonempty a c b : (a ++ String c b)%string <> EmptyString.
Proof. destruct a; discriminate. Qed.


Lemma max_from_In best l : In (max_from best l) (best :: l).
Proof.
  revert best. induction l as [|x l IH]; intro best; simpl; [now left|].
  destruct (String.ltb best x).
  - right. apply IH.
  - destruct (IH best) as [H|H]; [now left|right; now right].
Qed.

Lemma dates_nonempty txs d : In d (dates txs) -> d <> EmptyString.
Proof.
  unfold dates. intro H. apply in_flat_map in H as (t & _ & H).
  destruct (get (trans_date t)) as [s|]; [|destruct H].
  destruct (truthy (Some s)) eqn:E; [|destruct H].
  destruct H as [<-|[]]. simpl in E. apply negb_true_iff in E.
  now apply String.eqb_neq.
Qed.


(** The estimated period is empty only when no row is dated. *)
Lemma est_period_empty final :
  est_period final = EmptyString <-> dates final = [].
Proof.
  unfold est_period, period_of. split.
  - destruct (dates final) as [|d rest] eqn:E; [reflexivity|].
    pose proof (max_from_In d rest) as Hin. rewrite <- E in Hin.
    apply dates_nonempty in Hin.
    destruct (max_from d rest); [congruence|discriminate].
  - intros ->. reflexivity.
Qed.



(** ** The save button *)


Lemma transaction_warnings_nil db final :
  transaction_warnings db final = [] <->
  ~ 1 # 2 <= overlap_ratio (find_overlapping_transactions db final).
Proof.
  unfold transaction_warnings.
  destruct (Qle_bool (1 # 2) _) eqn:E.
  - apply Qle_bool_iff in E. split; [discriminate|contradiction].
  - split; [|reflexivity]. intros _ H. apply Qle_bool_iff in H. congruence.
Qed.





(** * Further properties *)

(** ** Integrity of the tables *)

Lemma NoDup_map_filter {A B} (g : A -> B) (p : A -> bool) l :
  NoDup (map g l) -> NoDup (map g (filter p l)).
Proof.
  induction l as [|a l IH]; simpl; intro H; [constructor|].
  inversion H as [|? ? Hn Hnd]; subst.
  destruct (p a); simpl; [|now apply IH].
  constructor; [|now apply IH].
  intro Hin. apply Hn. apply in_map_iff in Hin as (x & E & Hx).
  apply filter_In in Hx as [Hx _]. apply in_map_iff. eauto.
Qed.

Lemma new_transactions_In z sid bank txs r :
  In r (new_transactions z sid bank txs) ->
  t_statement_id r = sid /\ t_bank r = bank /\
  (z <= t_id r < z + Z.of_nat (List.length txs))%Z /\
  exists t, In t txs /\ r = tx_with_id (t_id r) (values_of sid bank t).
Proof.
  revert z. induction txs as [|t txs IH]; intros z H; [destruct H|].
  destruct H as [<-|H].
  - simpl. repeat split; try lia. exists t. split; [now left|reflexivity].
  - apply IH in H as (H1 & H2 & H3 & t' & Ht & E).
    repeat split; try assumption; try (simpl List.length; lia).
    exists t'. split; [now right|assumption].
Qed.

Lemma new_transactions_length z sid bank txs :
  List.length (new_transactions z sid bank txs) = List.length txs.
Proof.
  revert z. induction txs as [|t txs IH]; intro z; simpl; [reflexivity|].
  now rewrite IH.
Qed.

Lemma new_transactions_ids z sid bank txs :
  NoDup (map t_id (new_transactions z sid bank txs)).
Proof.
  revert z. induction txs as [|t txs IH]; intro z; simpl; constructor.
  - intro H. apply in_map_iff in H as (r & E & Hr).
    apply new_transactions_In in Hr as (_ & _ & Hb & _). lia.
  - apply IH.
Qed.

Lemma NoDup_app_disjoint {A} (l l' : list A) :
  NoDup l -> NoDup l' -> (forall x, In x l -> ~ In x l') -> NoDup (l ++ l').
Proof.
  induction 1 as [|a l Ha Hnd IH]; intros Hl' Hdis; simpl; [assumption|].
  constructor.
  - intro H. apply in_app_or in H as [H|H]; [contradiction|].
    apply (Hdis a); [now left|assumption].
  - apply IH; [assumption|]. intros x Hx. apply Hdis. now right.
Qed.

(** Transactions of a statement number that was never handed out. *)
Lemma owned_fresh db sid :
  well_formed db -> (seq_statements db < sid)%Z -> owned db sid = [].
Proof.
  intros Hwf Hlt. unfold owned.
  assert (H : forall t, In t (transactions db) ->
                        Z.eqb (t_statement_id t) sid = false).
  { intros t Ht. apply Z.eqb_neq.
    destruct (wf_owner db Hwf t Ht) as (s & Hs & E & _).
    pose proof (wf_statement_seq db Hwf s Hs). lia. }
  induction (transactions db) as [|t l IH]; simpl; [reflexivity|].
  rewrite (H t (or_introl eq_refl)). apply IH.
  intros t' Ht'. apply H. now right.
Qed.

Lemma filter_new_transactions z sid bank txs sid' :
  filter (fun t => Z.eqb (t_statement_id t) sid')
         (new_transactions z sid bank txs) =
  if Z.eqb sid sid' then new_transactions z sid bank txs else [].
Proof.
  revert z. induction txs as [|t txs IH]; intro z; simpl.
  - now destruct (Z.eqb sid sid').
  - rewrite IH. now destruct (Z.eqb sid sid').
Qed.

Lemma owned_saved now bank filenames txs cutoff_day hashes db sid :
  owned (saved now bank filenames txs cutoff_day hashes db) sid =
  owned db sid ++
  (if Z.eqb (seq_statements db + 1) sid
   then new_transactions (seq_transactions db + 1) (seq_statements db + 1)
                         bank txs
   else []).
Proof.
  unfold owned. cbn [saved transactions].
  now rewrite filter_app, filter_new_transactions.
Qed.

Lemma well_formed_empty : well_formed Db.empty.
Proof.
  split; simpl; try constructor; intros x [].
Qed.

Lemma well_formed_saved now bank filenames txs cutoff_day hashes db :
  well_formed db ->
  well_formed (saved now bank filenames txs cutoff_day hashes db).
Proof.
  intro Hwf. split.
  - cbn [saved statements]. rewrite map_app. simpl.
    apply NoDup_snoc; [apply (wf_statement_ids db Hwf)|].
    intro H. apply in_map_iff in H as (s & E & Hs).
    pose proof (wf_statement_seq db Hwf s Hs). lia.
  - cbn [saved statements seq_statements]. intros s Hs.
    apply in_app_or in Hs as [Hs|[<-|[]]].
    + pose proof (wf_statement_seq db Hwf s Hs). lia.
    + cbn [new_statement s_id]. lia.
  - cbn [saved transactions]. rewrite map_app.
    apply NoDup_app_disjoint.
    + apply (wf_transaction_ids db Hwf).
    + apply new_transactions_ids.
    + intros x Hx Hx'. apply in_map_iff in Hx as (t & <- & Ht).
      apply in_map_iff in Hx' as (r & E & Hr).
      apply new_transactions_In in Hr as (_ & _ & Hb & _).
      pose proof (wf_transaction_seq db Hwf t Ht). lia.
  - cbn [saved transactions seq_transactions]. intros t Ht.
    apply in_app_or in Ht as [Ht|Ht].
    + pose proof (wf_transaction_seq db Hwf t Ht). lia.
    + apply new_transactions_In in Ht as (_ & _ & Hb & _). lia.
  - cbn [saved transactions statements]. intros t Ht.
    apply in_app_or in Ht as [Ht|Ht].
    + destruct (wf_owner db Hwf t Ht) as (s & Hs & E & Eb).
      exists s. split; [apply in_or_app; now left|]. split; assumption.
    + apply new_transactions_In in Ht as (Es & Eb & _).
      eexists. split; [apply in_or_app; right; now left|].
      cbn [new_statement s_id s_bank]. split; congruence.
  - intros s Hs. rewrite owned_saved.
    cbn [saved statements] in Hs. apply in_app_or in Hs as [Hs|[<-|[]]].
    + pose proof (wf_statement_seq db Hwf s Hs) as Hle.
      assert (E : Z.eqb (seq_statements db + 1) (s_id s) = false)
        by (apply Z.eqb_neq; lia).
      rewrite E, app_nil_r. apply (wf_tx_count db Hwf s Hs).
    + cbn [new_statement s_id s_tx_count]. rewrite Z.eqb_refl.
      rewrite (owned_fresh db _ Hwf) by lia.
      simpl. now rewrite new_transactions_length.
Qed.

Lemma owned_deleted stmt_id db sid :
  owned (deleted stmt_id db) sid =
  if Z.eqb sid stmt_id then [] else owned db sid.
Proof.
  unfold owned. cbn [deleted transactions].
  induction (transactions db) as [|t l IH]; simpl.
  - now destruct (Z.eqb sid stmt_id).
  - destruct (Z.eqb (t_statement_id t) stmt_id) eqn:E1; simpl.
    + rewrite IH. destruct (Z.eqb sid stmt_id) eqn:E2; [reflexivity|].
      apply Z.eqb_eq in E1. apply Z.eqb_neq in E2.
      assert (E3 : Z.eqb (t_statement_id t) sid = false)
        by (apply Z.eqb_neq; lia).
      now rewrite E3.
    + rewrite IH. destruct (Z.eqb sid stmt_id) eqn:E2.
      * apply Z.eqb_eq in E2. apply Z.eqb_neq in E1.
        assert (E3 : Z.eqb (t_statement_id t) sid = false)
          by (apply Z.eqb_neq; lia).
        now rewrite E3.
      * reflexivity.
Qed.

Lemma well_formed_deleted stmt_id db :
  well_formed db -> well_formed (deleted stmt_id db).
Proof.
  intro Hwf. split; cbn [deleted statements transactions seq_statements
                          seq_transactions].
  - apply NoDup_map_filter, (wf_statement_ids db Hwf).
  - intros s Hs. apply filter_In in Hs as [Hs _].
    apply (wf_statement_seq db Hwf s Hs).
  - apply NoDup_map_filter, (wf_transaction_ids db Hwf).
  - intros t Ht. apply filter_In in Ht as [Ht _].
    apply (wf_transaction_seq db Hwf t Ht).
  - intros t Ht. apply filter_In in Ht as [Ht Hne].
    destruct (wf_owner db Hwf t Ht) as (s & Hs & E & Eb).
    exists s. split; [|split; assumption].
    apply filter_In. split; [assumption|]. now rewrite E.
  - intros s Hs. apply filter_In in Hs as [Hs Hne].
    rewrite owned_deleted. apply negb_true_iff in Hne. rewrite Hne.
    apply (wf_tx_count db Hwf s Hs).
Qed.

Lemma well_formed_of_reachable db : reachable db -> well_formed db.
Proof.
  induction 1 as [|f now bank filenames txs cutoff_day hashes db _ IH
                  |f stmt_id db _ IH].
  - apply well_formed_empty.
  - rewrite save_transactions_cases.
    destruct (accepts f (S (List.length txs))); [|exact IH].
    now apply well_formed_saved.
  - rewrite delete_statement_cases.
    destruct (accepts f 2); [|exact IH].
    now apply well_formed_deleted.
Qed.

(** X1. In every database the application produces, statement ids and
    transaction ids are distinct and not above their AUTOINCREMENT counter,
    each transaction belongs to a stored statement and carries its bank,
    and [tx_count] is the number of transactions of the statement. *)
Theorem reachable_well_formed db :
  reachable db ->
  NoDup (map s_id (statements db)) /\
  NoDup (map t_id (transactions db)) /\
  (forall s, In s (statements db) -> (s_id s <= seq_statements db)%Z) /\
  (forall t, In t (transactions db) -> (t_id t <= seq_transactions db)%Z) /\
  (forall t, In t (transactions db) ->
     exists s, In s (statements db) /\ s_id s = t_statement_id t /\
               s_bank s = t_bank t) /\
  (forall s, In s (statements db) ->
     s_tx_count s =
     Z.of_nat (List.length
                 (filter (fun t => Z.eqb (t_statement_id t) (s_id s))
                         (transactions db)))).
Proof.
  intro Hr. destruct (well_formed_of_reachable db Hr) as [H1 H2 H3 H4 H5 H6].
  repeat split; assumption.
Qed.

Lemma reachable_well_formed_witness :
  reachable Sample.db_saved /\
  NoDup (map s_id (statements Sample.db_saved)) /\
  NoDup (map t_id (transactions Sample.db_saved)).
Proof.
  assert (R : reachable Sample.db_saved) by apply reach_save, reach_init.
  split; [exact R|].
  destruct (reachable_well_formed Sample.db_saved R) as (H1 & H2 & _).
  split; assumption.
Defined.

(** ** Deleting a statement *)

(** X2. [delete_statement] removes the statement and every transaction
    that belongs to it, keeps all other rows and both AUTOINCREMENT
    counters, or raises and leaves the database as it was, also when
    the storage fails between the two [DELETE]s. *)
Theorem delete_statement_cascade f stmt_id db :
  (accepts f 2 = true ->
   fst (delete_statement f stmt_id db) = inr tt /\
   (forall s, In s (statements (snd (delete_statement f stmt_id db))) <->
              In s (statements db) /\ s_id s <> stmt_id) /\
   (forall t, In t (transactions (snd (delete_statement f stmt_id db))) <->
              In t (transactions db) /\ t_statement_id t <> stmt_id) /\
   seq_statements (snd (delete_statement f stmt_id db)) = seq_statements db /\
   seq_transactions (snd (delete_statement f stmt_id db))
     = seq_transactions db) /\
  (accepts f 2 = false ->
   delete_statement f stmt_id db = (inl OperationalError, db)).
Proof.
  rewrite delete_statement_cases. split; intros ->; [|reflexivity].
  cbn [fst snd deleted statements transactions seq_statements
       seq_transactions].
  split; [reflexivity|]. split; [|split; [|split; reflexivity]].
  - intro s. rewrite filter_In, negb_true_iff, Z.eqb_neq. reflexivity.
  - intro t. rewrite filter_In, negb_true_iff, Z.eqb_neq. reflexivity.
Qed.

Lemma delete_statement_cascade_witness :
  delete_statement (Some 1%nat) 1 Sample.db_saved
  = (inl OperationalError, Sample.db_saved).
Proof.
  apply (delete_statement_cascade (Some 1%nat) 1 Sample.db_saved).
  reflexivity.
Defined.

Lemma filter_keeps_all {A} (p : A -> bool) l :
  (forall x, In x l -> p x = true) -> filter p l = l.
Proof. apply filter_all. Qed.

Lemma filter_drops_all {A} (p : A -> bool) l :
  (forall x, In x l -> p x = false) -> filter p l = [].
Proof.
  induction l as [|a l IH]; intro H; simpl; [reflexivity|].
  rewrite (H a (or_introl eq_refl)). apply IH.
  intros x Hx. apply H. now right.
Qed.

(** X3. On a database the application produced, saving a batch and then
    deleting the statement just created gives back the two tables as they
    were before the save. *)
Theorem save_then_delete f f' now bank filenames txs cutoff_day hashes db :
  reachable db ->
  accepts f (S (List.length txs)) = true -> accepts f' 2 = true ->
  let db1 := snd (save_transactions f now bank filenames txs cutoff_day
                                    hashes db) in
  let db2 := snd (delete_statement f' (seq_statements db + 1) db1) in
  fst (delete_statement f' (seq_statements db + 1) db1) = inr tt /\
  statements db2 = statements db /\ transactions db2 = transactions db.
Proof.
  intros Hr Hf Hf' db1 db2. subst db2 db1.
  pose proof (well_formed_of_reachable db Hr) as Hwf.
  rewrite save_transactions_cases, Hf. cbn [snd].
  rewrite delete_statement_cases, Hf'. cbn [fst snd].
  split; [reflexivity|].
  cbn [deleted saved statements transactions]. split.
  - rewrite filter_app. simpl. rewrite Z.eqb_refl. simpl.
    rewrite app_nil_r. apply filter_keeps_all. intros s Hs.
    apply negb_true_iff, Z.eqb_neq.
    pose proof (wf_statement_seq db Hwf s Hs). lia.
  - rewrite filter_app.
    rewrite (filter_drops_all _ (new_transactions _ _ _ _)).
    + rewrite app_nil_r. apply filter_keeps_all. intros t Ht.
      apply negb_true_iff, Z.eqb_neq.
      destruct (wf_owner db Hwf t Ht) as (s & Hs & E & _).
      pose proof (wf_statement_seq db Hwf s Hs). lia.
    + intros t Ht. apply new_transactions_In in Ht as (E & _).
      rewrite E, Z.eqb_refl. reflexivity.
Qed.

Lemma save_then_delete_witness :
  let db1 := snd (save_transactions None Sample.now "KTB Visa" ["feb.pdf"%string]
                    Sample.batch None None Sample.db_saved) in
  let db2 := snd (delete_statement None (seq_statements Sample.db_saved + 1) db1) in
  fst (delete_statement None (seq_statements Sample.db_saved + 1) db1) = inr tt /\
  statements db2 = statements Sample.db_saved /\
  transactions db2 = transactions Sample.db_saved.
Proof.
  apply (save_then_delete None None Sample.now "KTB Visa" ["feb.pdf"%string]
           Sample.batch None None Sample.db_saved).
  - apply reach_save, reach_init.
  - reflexivity.
  - reflexivity.
Defined.

(** X4. Once the only statement that holds a fingerprint is deleted, the
    fingerprint is no longer found and the file can be imported again. *)
Theorem delete_then_find_duplicate f stmt_id db h :
  accepts f 2 = true ->
  (forall s, In s (statements db) -> holds h s -> s_id s = stmt_id) ->
  fst (find_duplicate_statement (snd (delete_statement f stmt_id db)) h) = None.
Proof.
  intros Hf Honly. rewrite delete_statement_cases, Hf. cbn [snd].
  destruct (String.eqb_spec h EmptyString) as [->|Hne]; [reflexivity|].
  rewrite (find_duplicate_statement_find _ _ Hne).
  assert (E : find (contains h) (statements (deleted stmt_id db)) = None).
  { apply find_none_iff. intros s Hs. cbn [deleted statements] in Hs.
    apply filter_In in Hs as [Hs Hid].
    destruct (contains h s) eqn:Ec; [|reflexivity].
    apply (contains_holds _ _ Hne) in Ec. apply Honly in Ec; [|assumption].
    apply negb_true_iff, Z.eqb_neq in Hid. contradiction. }
  now rewrite E.
Qed.

Lemma delete_then_find_duplicate_witness :
  fst (find_duplicate_statement
         (snd (delete_statement None 1 Sample.db_saved)) "aa11") = None.
Proof.
  apply delete_then_find_duplicate.
  - reflexivity.
  - intros s [<-|[]] _. reflexivity.
Defined.

(** ** Saving, then checking again *)

Lemma find_app {A} (p : A -> bool) l l' :
  find p (l ++ l') =
  match find p l with Some x => Some x | None => find p l' end.
Proof.
  induction l as [|a l IH]; simpl; [reflexivity|].
  destruct (p a); [reflexivity|assumption].
Qed.

(** X5. After a successful save with the fingerprints [hs], each of them is
    found again: [find_duplicate_statement] returns the statement it
    returned before the save, if any, and the new statement otherwise. *)
Theorem save_then_find_duplicate f now bank filenames txs cutoff_day hs db h :
  accepts f (S (List.length txs)) = true ->
  Forall clean hs -> In h hs -> h <> EmptyString ->
  fst (find_duplicate_statement
         (snd (save_transactions f now bank filenames txs cutoff_day
                                 (Some hs) db)) h) =
  match fst (find_duplicate_statement db h) with
  | Some d => Some d
  | None => Some (project (new_statement now bank filenames txs cutoff_day
                                         (Some hs) db))
  end.
Proof.
  intros Hf Hclean Hin Hne.
  rewrite save_transactions_cases, Hf. cbn [snd].
  rewrite !(find_duplicate_statement_find _ _ Hne).
  cbn [saved statements]. rewrite find_app.
  destruct (find (contains h) (statements db)); [reflexivity|].
  simpl find.
  assert (Hc : contains h (new_statement now bank filenames txs cutoff_day
                                         (Some hs) db) = true).
  { unfold contains. cbn [new_statement s_file_hash].
    rewrite stored_hash_str; [|intros ->; destruct Hin|assumption].
    apply existsb_exists. exists h. split; [assumption|].
    apply String.eqb_refl. }
  now rewrite Hc.
Qed.

Lemma save_then_find_duplicate_witness :
  fst (find_duplicate_statement
         (snd (save_transactions None Sample.now "SCB" ["mar.pdf"%string]
                 Sample.batch None (Some ["dd44"; "ee55"]%string)
                 Sample.db_saved)) "ee55")
  = Some (project (new_statement Sample.now "SCB" ["mar.pdf"%string]
                     Sample.batch None (Some ["dd44"; "ee55"]%string)
                     Sample.db_saved)).
Proof.
  apply (save_then_find_duplicate None Sample.now "SCB" ["mar.pdf"%string]
           Sample.batch None ["dd44"; "ee55"]%string Sample.db_saved "ee55").
  - reflexivity.
  - repeat constructor.
  - right. left. reflexivity.
  - discriminate.
Defined.

Lemma fold_left_Qplus l a :
  fold_left Qplus l a == a + fold_right Qplus 0 l.
Proof.
  revert a. induction l as [|x l IH]; intro a; simpl.
  - ring.
  - rewrite IH. ring.
Qed.

Lemma new_transactions_total z sid bank txs :
  fold_right (fun t acc => positive_part (t_amount t) + acc) 0
             (new_transactions z sid bank txs)
  == total_amount txs.
Proof.
  unfold total_amount. rewrite fold_left_Qplus.
  revert z. induction txs as [|t txs IH]; intro z; simpl.
  - ring.
  - rewrite (IH (z + 1)%Z). unfold positive_part, positive.
    destruct (Qltb 0 (float_amount t)); simpl; ring.
Qed.

(** The total stored for the statement a save creates is the
    positive-amount total of the batch. *)
Lemma stored_total_saved now bank filenames txs cutoff_day hashes db :
  well_formed db ->
  stored_total (saved now bank filenames txs cutoff_day hashes db)
               (seq_statements db + 1)
  == total_amount txs.
Proof.
  intro Hwf. unfold stored_total.
  change (joined (saved now bank filenames txs cutoff_day hashes db)
                 (seq_statements db + 1))
    with (owned (saved now bank filenames txs cutoff_day hashes db)
                (seq_statements db + 1)).
  rewrite owned_saved, Z.eqb_refl, (owned_fresh db _ Hwf) by lia.
  simpl app. apply new_transactions_total.
Qed.

Lemma period_of_dated txs default default' :
  dates txs <> [] -> period_of txs default = period_of txs default'.
Proof.
  unfold period_of. destruct (dates txs); [congruence|reflexivity].
Qed.

Lemma ratio_of_equal T S : T == S -> ratio_of T S == 0.
Proof.
  intro E. unfold ratio_of.
  assert (H : T - S == 0) by (rewrite E; ring).
  rewrite H. reflexivity.
Qed.

(** After a save, the statement matcher returns the new statement for the
    period and total of the batch that was saved. *)
Lemma saved_is_similar now bank filenames txs cutoff_day hashes db bank' tol :
  well_formed db -> dates txs <> [] -> 0 <= tol ->
  exists c,
    In c (find_similar_statement
            (saved now bank filenames txs cutoff_day hashes db) bank'
            (est_period txs) (total_amount txs) tol) /\
    cand_row c = select_row (saved now bank filenames txs cutoff_day hashes db)
                   (new_statement now bank filenames txs cutoff_day hashes db) /\
    diff_ratio c == 0 /\
    bank_match c = String.eqb bank bank'.
Proof.
  intros Hwf Hd Htol.
  set (db' := saved now bank filenames txs cutoff_day hashes db).
  set (s := new_statement now bank filenames txs cutoff_day hashes db).
  pose proof (stored_total_saved now bank filenames txs cutoff_day hashes db Hwf)
    as Htot. fold db' in Htot.
  assert (Hsim : similar_totals (total_amount txs) tol
                   (r_total_amount (select_row db' s))).
  { cbn [select_row r_total_amount s new_statement s_id].
    unfold similar_totals.
    destruct (Qeq_dec (stored_total db' (seq_statements db + 1)) 0) as [E|E].
    - left. split; [assumption|]. now rewrite <- Htot.
    - right. split; [assumption|].
      rewrite ratio_of_equal; [assumption|]. now symmetry. }
  destruct (check_row_similar bank' _ _ _ Hsim) as (c & Ec & Hrow & Hb & H0 & Hn).
  exists c. split; [|split; [assumption|split]].
  - unfold find_similar_statement. apply in_flat_map.
    exists (select_row db' s). split; [|rewrite Ec; now left].
    apply select_period_In.
    + unfold db'. cbn [saved statements]. apply in_or_app. right. now left.
    + unfold s, est_period. cbn [new_statement s_period].
      now apply period_of_dated.
  - cbn [select_row r_total_amount s new_statement s_id] in H0, Hn.
    destruct (Qeq_dec (stored_total db' (seq_statements db + 1)) 0) as [E|E].
    + rewrite (H0 E). reflexivity.
    + rewrite (Hn E). apply ratio_of_equal. now symmetry.
  - rewrite Hb. reflexivity.
Qed.



Lemma new_transactions_row z sid bank txs t :
  In t txs ->
  exists id, In (tx_with_id id (values_of sid bank t))
                (new_transactions z sid bank txs).
Proof.
  revert z. induction txs as [|a txs IH]; intros z Hin; [destruct Hin|].
  destruct Hin as [<-|H].
  - exists z. now left.
  - destruct (IH (z + 1)%Z H) as (id & Hid). exists id. now right.
Qed.

Lemma within_slack_same a : within_slack a a = true.
Proof.
  apply within_slack_lt.
  assert (H : a - a == 0) by ring.
  rewrite H. reflexivity.
Qed.

Lemma sql_text_eq_same o : o <> None -> sql_text_eq o o = true.
Proof.
  destruct o as [s|]; [|congruence]. intros _. apply String.eqb_refl.
Qed.

(** The row a save stores for [t] soft-matches [t] when its date is not
    [None], and exact-matches it when its description is not [None]
    either. *)
Lemma saved_row_matches now bank filenames txs cutoff_day hashes db t :
  In t txs -> date_str t <> None ->
  soft (saved now bank filenames txs cutoff_day hashes db) t = true /\
  (desc t <> None ->
   exact (saved now bank filenames txs cutoff_day hashes db) t = true).
Proof.
  intros Ht Hd.
  destruct (new_transactions_row (seq_transactions db + 1)
              (seq_statements db + 1) bank txs t Ht) as (id & Hid).
  assert (Hin : In (tx_with_id id (values_of (seq_statements db + 1) bank t))
                   (transactions (saved now bank filenames txs cutoff_day
                                        hashes db))).
  { cbn [saved transactions]. apply in_or_app. now right. }
  split.
  - unfold soft, fetchone. apply existsb_exists.
    eexists. split; [exact Hin|].
    unfold soft_where. cbn [tx_with_id values_of t_trans_date t_amount
                            v_trans_date v_amount].
    fold (date_str t). now rewrite sql_text_eq_same, within_slack_same.
  - intro Hx. unfold exact, fetchone. apply existsb_exists.
    eexists. split; [exact Hin|].
    unfold exact_where. cbn [tx_with_id values_of t_trans_date t_amount
                             t_description v_trans_date v_amount v_description].
    fold (date_str t) (desc t).
    now rewrite !sql_text_eq_same, within_slack_same.
Qed.

(** X7. After a successful save, every row of the batch whose date is not
    [None] soft-matches a stored transaction, and exact-matches one when
    its description is not [None] either; so when the batch has a
    positive-amount row and none of these has a [None] date, checking the
    same batch again gives an overlap ratio of 1. *)
Theorem save_then_overlap f now bank filenames txs cutoff_day hashes db :
  accepts f (S (List.length txs)) = true ->
  let db' := snd (save_transactions f now bank filenames txs cutoff_day
                                    hashes db) in
  (forall t, In t txs -> date_str t <> None ->
     soft db' t = true /\ (desc t <> None -> exact db' t = true)) /\
  ((exists t, In t txs /\ positive t = true) ->
   (forall t, In t txs -> positive t = true -> date_str t <> None) ->
   overlap_ratio (find_overlapping_transactions db' txs) == 1 /\
   soft_count (find_overlapping_transactions db' txs)
     = List.length (filter positive txs)).
Proof.
  intros Hf db'. subst db'. rewrite save_transactions_cases, Hf. cbn [snd].
  split; [intros t; apply saved_row_matches|].
  intros (t0 & Ht0 & Hp0) Hdates.
  set (db' := saved now bank filenames txs cutoff_day hashes db).
  assert (Hall : List.length (filter (fun t => positive t && soft db' t) txs)
                 = List.length (filter positive txs)).
  { apply filter_and_length_eq. intros t Ht Hp.
    apply (saved_row_matches now bank filenames txs cutoff_day hashes db t Ht).
    now apply Hdates. }
  destruct (find_overlapping_transactions_cases db' txs) as [[Hp E]|[Hp E]].
  - exfalso. rewrite filter_length_zero in Hp.
    specialize (Hp t0 Ht0). congruence.
  - rewrite E. cbn [overlap_ratio soft_count]. split; [|assumption].
    now apply ratio_one_iff.
Qed.

Lemma save_then_overlap_witness :
  let db' := snd (save_transactions None Sample.now "KTB Visa" ["jan.pdf"%string]
                    Sample.batch None None Db.empty) in
  overlap_ratio (find_overlapping_transactions db' Sample.batch) == 1 /\
  soft_count (find_overlapping_transactions db' Sample.batch)
    = List.length (filter positive Sample.batch).
Proof.
  intro db'.
  destruct (save_then_overlap None Sample.now "KTB Visa" ["jan.pdf"%string]
              Sample.batch None None Db.empty) as [_ H]; [reflexivity|].
  apply H.
  - eexists. split; [left; reflexivity|reflexivity].
  - intros t [<-|[<-|[<-|[]]]] _; discriminate.
Defined.

(** ** The review form *)

Lemma on_click_save_warned f now p db bank final :
  dup_warnings db bank final <> [] ->
  on_click f now (Review p) db (ClickSave bank final)
  = (AwaitingConfirmation p (dup_warnings db bank final) final bank, db, None).
Proof.
  intro H. simpl. destruct (dup_warnings db bank final); [congruence|reflexivity].
Qed.

Lemma do_save_committed f now st p bank final db n bank0 db' e :
  do_save f now st p bank final db = (Committed n bank0, db', e) ->
  st = Committed n bank0 \/
  (accepts f (S (List.length final)) = true /\
   db' = saved now bank (pending_files p) final (pending_cutoff_day p)
               (pending_file_hashes p) db).
Proof.
  unfold do_save. rewrite save_transactions_cases.
  destruct (accepts f (S (List.length final))).
  - intros [= _ _ <- _]. right. split; reflexivity.
  - intros [= -> _ _]. now left.
Qed.

(** X8. On a database the application produced, once a batch with a dated
    row has been committed from the review form or from the confirmation
    form, a later click on save for the same rows is never committed at
    once: it shows a statement-level warning and waits for confirmation,
    whatever bank name is entered. *)
Theorem committed_batch_warns_again f now p ws bank final db n bank0 db' e
    f' now' p' bank' :
  reachable db -> dates final <> [] ->
  (on_click f now (Review p) db (ClickSave bank final)
     = (Committed n bank0, db', e) \/
   on_click f now (AwaitingConfirmation p ws final bank) db
            (ClickSaveAgain true) = (Committed n bank0, db', e)) ->
  exists ws' c,
    In (StatementLevel c) ws' /\
    on_click f' now' (Review p') db' (ClickSave bank' final)
    = (AwaitingConfirmation p' ws' final bank', db', None).
Proof.
  intros Hr Hd Hclick.
  assert (Hsave : db' = saved now bank (pending_files p) final
                          (pending_cutoff_day p) (pending_file_hashes p) db).
  { destruct Hclick as [H|H].
    - simpl in H. destruct (dup_warnings db bank final); [|discriminate].
      apply do_save_committed in H as [H|[_ H]]; [discriminate|assumption].
    - simpl in H.
      apply do_save_committed in H as [H|[_ H]]; [discriminate|assumption]. }
  destruct (saved_is_similar now bank (pending_files p) final
              (pending_cutoff_day p) (pending_file_hashes p) db bank'
              default_tolerance (well_formed_of_reachable db Hr) Hd)
    as (c & Hc & _).
  { vm_compute. discriminate. }
  rewrite <- Hsave in Hc.
  assert (Hin : In (StatementLevel c) (dup_warnings db' bank' final)).
  { unfold dup_warnings. apply in_or_app. left. unfold statement_warnings.
    assert (Et : truthy (Some (est_period final)) = true).
    { simpl. apply negb_true_iff, String.eqb_neq. intro E.
      apply est_period_empty in E. contradiction. }
    rewrite Et. now apply in_map. }
  exists (dup_warnings db' bank' final), c. split; [assumption|].
  apply on_click_save_warned. intro E. rewrite E in Hin. destruct Hin.
Qed.

Lemma committed_batch_warns_again_witness :
  exists ws' c,
    In (StatementLevel c) ws' /\
    on_click None Sample.now (Review Sample.staged) Sample.db_saved
             (ClickSave "Krungthai" Sample.batch)
    = (AwaitingConfirmation Sample.staged ws' Sample.batch "Krungthai",
       Sample.db_saved, None).
Proof.
  apply (committed_batch_warns_again None Sample.now Sample.staged []
           "KTB Visa" Sample.batch Db.empty 3%nat "KTB Visa" Sample.db_saved
           None None Sample.now Sample.staged "Krungthai").
  - apply reach_init.
  - discriminate.
  - left. reflexivity.
Defined.

Lemma none_dates txs :
  (forall t, In t txs -> trans_date t = PyNone) -> dates txs = [].
Proof.
  induction txs as [|t txs IH]; intro H; [reflexivity|].
  unfold dates. simpl. rewrite (H t (or_introl eq_refl)). simpl.
  apply IH. intros t' Ht'. apply H. now right.
Qed.

(** X9. A batch in which every row has [None] as its date is never flagged:
    the statement-level check is skipped for want of a period and a [NULL]
    date matches no stored transaction, so the click on save commits at
    once on every database, also when the same rows were saved before. *)
Theorem undated_batch_never_warns f now p db bank final :
  (forall t, In t final -> trans_date t = PyNone) ->
  dup_warnings db bank final = [] /\
  overlap_ratio (find_overlapping_transactions db final) == 0 /\
  on_click f now (Review p) db (ClickSave bank final)
  = do_save f now (Review p) p bank final db.
Proof.
  intro Hnone.
  assert (Hs : statement_warnings db bank final = []).
  { unfold statement_warnings, est_period, period_of.
    now rewrite (none_dates _ Hnone). }
  assert (Hsoft : forall t, In t final -> soft db t = false).
  { intros t Ht. unfold soft, fetchone.
    destruct (existsb _ _) eqn:E; [|reflexivity].
    apply existsb_exists in E as (r & _ & E). unfold soft_where in E.
    apply andb_true_iff in E as [E _]. apply sql_text_eq_true in E.
    destruct E as (d & _ & E). unfold date_str in E.
    rewrite (Hnone t Ht) in E. discriminate. }
  assert (Hr : overlap_ratio (find_overlapping_transactions db final) == 0).
  { destruct (find_overlapping_transactions_cases db final)
      as [[Hp ->]|[Hp ->]]; cbn [overlap_ratio]; [reflexivity|].
    apply (ratio_zero_iff _ _ Hp). apply filter_length_zero.
    intros t Ht. rewrite (Hsoft t Ht). apply andb_false_r. }
  assert (Hw : dup_warnings db bank final = []).
  { unfold dup_warnings. rewrite Hs. simpl.
    apply transaction_warnings_nil. rewrite Hr. intro H.
    vm_compute in H. apply H. reflexivity. }
  split; [assumption|]. split; [assumption|].
  simpl. now rewrite Hw.
Qed.

Lemma undated_batch_never_warns_witness :
  let row := {| trans_date := PyNone; posting_date := Missing;
                description := Val "TMN 7-11 BANGKOK TH"%string;
                amount := Some (150 # 1);
                category := Val default_category; subcategory := PyNone |} in
  let db := snd (save_transactions None Sample.now "KTB Visa" ["a.pdf"%string]
                   [row] None None Db.empty) in
  dup_warnings db "KTB Visa" [row] = [].
Proof.
  intros row db.
  apply (undated_batch_never_warns None Sample.now Sample.staged db
           "KTB Visa" [row]).
  intros t [<-|[]]. reflexivity.
Defined.

(** ** More on the statement matcher *)

Lemma ratio_of_nonneg T S : 0 <= ratio_of T S.
Proof.
  unfold ratio_of.
  assert (H1 : 1 <= Qmax (Qabs S) 1) by apply Q.le_max_r.
  apply Qle_shift_div_l; [lra|].
  pose proof (Qabs_nonneg (T - S)). lra.
Qed.

Lemma length_flat_map_le {A B} (g : A -> list B) l :
  (forall x, (List.length (g x) <= 1)%nat) ->
  (List.length (flat_map g l) <= List.length l)%nat.
Proof.
  intro H. induction l as [|a l IH]; simpl; [lia|].
  rewrite length_app. specialize (H a). lia.
Qed.

Lemma check_row_length bank T tol row :
  (List.length (check_row bank T tol row) <= 1)%nat.
Proof.
  unfold check_row.
  destruct (Qeq_bool (r_total_amount row) 0 && Qeq_bool T 0); [simpl; lia|].
  destruct (Qeq_bool (r_total_amount row) 0); [simpl; lia|].
  destruct (Qle_bool _ tol); simpl; lia.
Qed.

Lemma check_row_bank_match bank T tol row c :
  In c (check_row bank T tol row) ->
  bank_match c = String.eqb (r_bank row) bank.
Proof.
  unfold check_row.
  destruct (Qeq_bool (r_total_amount row) 0 && Qeq_bool T 0).
  - intros [<-|[]]. reflexivity.
  - destruct (Qeq_bool (r_total_amount row) 0); [intros []|].
    destruct (Qle_bool _ tol); [|intros []].
    intros [<-|[]]. reflexivity.
Qed.

(** X10. Every candidate [find_similar_statement] returns stands for a
    stored statement of exactly the period asked for, at most one candidate
    per statement; its ratio is not negative, and is either within the
    tolerance or the 0.0 of the zero-against-zero case; its [bank_match]
    says whether the stored bank equals the bank given. *)
Theorem find_similar_statement_sound db bank period T tol :
  (forall c, In c (find_similar_statement db bank period T tol) ->
     exists s, In s (statements db) /\ s_period s = period /\
       cand_row c = select_row db s /\
       bank_match c = String.eqb (s_bank s) bank /\
       0 <= diff_ratio c /\
       (diff_ratio c <= tol \/
        (diff_ratio c = 0 /\ stored_total db (s_id s) == 0 /\ T == 0))) /\
  (List.length (find_similar_statement db bank period T tol)
   <= List.length (filter (fun s => String.eqb (s_period s) period)
                          (statements db)))%nat.
Proof.
  split.
  - intros c Hc. unfold find_similar_statement in Hc.
    apply in_flat_map in Hc as (row & Hrow & Hc).
    unfold select_period in Hrow.
    apply in_map_iff in Hrow as (s & <- & Hs).
    apply filter_In in Hs as [Hs Hp]. apply String.eqb_eq in Hp.
    pose proof (check_row_bank_match _ _ _ _ _ Hc) as Hb.
    apply check_row_In in Hc as (Hcr & Hcases).
    exists s. repeat split; try assumption.
    + destruct Hcases as [(_ & _ & ->)|(_ & -> & _)];
        [lra|apply ratio_of_nonneg].
    + destruct Hcases as [(H0 & HT & E)|(_ & E & Hle)].
      * right. auto.
      * left. now rewrite E.
  - unfold find_similar_statement, select_period.
    etransitivity; [apply length_flat_map_le, check_row_length|].
    now rewrite length_map.
Qed.

Lemma find_similar_statement_sound_witness :
  exists c s,
    In c (find_similar_statement Sample.db_saved "SCB" "2026-01"
                                 (569 # 1) default_tolerance) /\
    In s (statements Sample.db_saved) /\ s_period s = "2026-01"%string /\
    cand_row c = select_row Sample.db_saved s /\ bank_match c = false.
Proof.
  destruct (find_similar_statement_sound Sample.db_saved "SCB" "2026-01"
              (569 # 1) default_tolerance) as [H _].
  assert (Hex : exists c,
            In c (find_similar_statement Sample.db_saved "SCB" "2026-01"
                                         (569 # 1) default_tolerance) /\
            bank_match c = false).
  { vm_compute. eexists. split; [left; reflexivity|reflexivity]. }
  destruct Hex as (c & Hc & Hb).
  destruct (H c Hc) as (s & Hs & Hp & Hrow & _).
  exists c, s. repeat split; assumption.
Defined.

(** X11. The bank name is no filter: whatever bank is given,
    [find_similar_statement] returns the same statements with the same
    ratios, in the same order; only [bank_match] differs. *)
Theorem find_similar_statement_any_bank db bank bank' period T tol :
  map (fun c => (cand_row c, diff_ratio c))
      (find_similar_statement db bank period T tol) =
  map (fun c => (cand_row c, diff_ratio c))
      (find_similar_statement db bank' period T tol).
Proof.
  unfold find_similar_statement.
  induction (select_period db period) as [|row rows IH]; simpl;
    [reflexivity|].
  rewrite !map_app, IH. f_equal. unfold check_row.
  destruct (Qeq_bool (r_total_amount row) 0 && Qeq_bool T 0); [reflexivity|].
  destruct (Qeq_bool (r_total_amount row) 0); [reflexivity|].
  destruct (Qle_bool _ tol); reflexivity.
Qed.

(** ** The billing period *)

Lemma ascii_compare_refl a : Ascii.compare a a = Eq.
Proof. unfold Ascii.compare. apply N.compare_refl. Qed.

Lemma string_compare_lt_trans a b c :
  String.compare a b = Lt -> String.compare b c = Lt ->
  String.compare a c = Lt.
Proof.
  revert b c. induction a as [|x a IH]; intros [|y b] [|z c]; simpl;
    try discriminate; try reflexivity.
  destruct (Ascii.compare x y) eqn:Exy; try discriminate;
    destruct (Ascii.compare y z) eqn:Eyz; try discriminate.
  - apply Ascii.compare_eq_iff in Exy, Eyz. subst.
    rewrite ascii_compare_refl. apply IH.
  - apply Ascii.compare_eq_iff in Exy. subst. now rewrite Eyz.
  - apply Ascii.compare_eq_iff in Eyz. subst. now rewrite Exy.
  - intros _ _. unfold Ascii.compare in Exy, Eyz |- *.
    apply N.compare_lt_iff in Exy. apply N.compare_lt_iff in Eyz.
    pose proof (N.lt_trans _ _ _ Exy Eyz) as H.
    apply N.compare_lt_iff in H. now rewrite H.
Qed.

Lemma string_leb_cases a b :
  String.leb a b = true <-> a = b \/ String.compare a b = Lt.
Proof.
  unfold String.leb. destruct (String.compare a b) eqn:E.
  - apply String.compare_eq_iff in E. split; auto.
  - split; auto.
  - split; [discriminate|]. intros [->|H]; [|discriminate].
    assert (H : String.compare b b = Eq).
    { clear. induction b as [|x b IH]; simpl; [reflexivity|].
      now rewrite ascii_compare_refl. }
    congruence.
Qed.

Lemma string_leb_trans a b c :
  String.leb a b = true -> String.leb b c = true -> String.leb a c = true.
Proof.
  rewrite !string_leb_cases. intros [->|Hab] [->|Hbc]; auto.
  right. eapply string_compare_lt_trans; eassumption.
Qed.

Lemma string_ltb_false_leb a b :
  String.ltb a b = false -> String.leb b a = true.
Proof.
  unfold String.ltb, String.leb. rewrite (String.compare_antisym b a).
  destruct (String.compare a b); simpl; congruence.
Qed.

Lemma string_ltb_leb a b : String.ltb a b = true -> String.leb a b = true.
Proof.
  unfold String.ltb, String.leb. destruct (String.compare a b); congruence.
Qed.

Lemma max_from_greatest best l x :
  In x (best :: l) -> String.leb x (max_from best l) = true.
Proof.
  revert best x. induction l as [|y l IH]; intros best x Hx.
  - destruct Hx as [<-|[]]. simpl. apply string_leb_cases. now left.
  - simpl. destruct (String.ltb best y) eqn:E.
    + destruct Hx as [<-|Hx]; [|now apply IH].
      apply string_ltb_leb in E.
      eapply string_leb_trans; [exact E|]. apply IH. now left.
    + apply string_ltb_false_leb in E.
      destruct Hx as [<-|[<-|Hx]].
      * apply IH. now left.
      * eapply string_leb_trans; [exact E|]. apply IH. now left.
      * apply IH. now right.
Qed.

(** X12. The period of a batch is the first seven characters of its latest
    date, the dates being compared as strings and rows without a date
    left out; a batch without any dated row gets the fallback: the current
    month in [save_transactions], the empty string in [page_import]. *)
Theorem period_of_latest_date txs default :
  (dates txs = [] -> period_of txs default = default) /\
  (dates txs <> [] ->
   exists d, In d (dates txs) /\
     (forall d', In d' (dates txs) -> String.leb d' d = true) /\
     period_of txs default = substring 0 7 d) /\
  (forall d, In d (dates txs) <->
     exists t, In t txs /\ trans_date t = Val d /\ d <> EmptyString).
Proof.
  split; [|split].
  - unfold period_of. now intros ->.
  - unfold period_of. destruct (dates txs) as [|d rest] eqn:E; [congruence|].
    intros _. exists (max_from d rest). split; [apply max_from_In|].
    split; [|reflexivity]. intros d'. apply max_from_greatest.
  - intro d. unfold dates. rewrite in_flat_map. split.
    + intros (t & Ht & Hd). exists t. split; [assumption|].
      destruct (trans_date t) as [| |s]; simpl in Hd; try destruct Hd.
      destruct (String.eqb s EmptyString) eqn:Es; simpl in Hd;
        [destruct Hd|].
      destruct Hd as [<-|[]]. split; [reflexivity|].
      now apply String.eqb_neq.
    + intros (t & Ht & E & Hne). exists t. split; [assumption|].
      rewrite E. simpl. apply String.eqb_neq in Hne. rewrite Hne.
      now left.
Qed.

Lemma period_of_latest_date_witness :
  exists d, In d (dates Sample.batch) /\
    (forall d', In d' (dates Sample.batch) -> String.leb d' d = true) /\
    period_of Sample.batch (strftime_ym Sample.now) = substring 0 7 d.
Proof.
  apply (period_of_latest_date Sample.batch (strftime_ym Sample.now)).
  discriminate.
Defined.

(** ** The suggested bank *)

Lemma names_In_truthy key pages b :
  In b (names key pages) -> truthy (Some b) = true.
Proof.
  intro Hb. unfold names in Hb.
  apply in_flat_map in Hb as ([r|] & _ & Hb); [|destruct Hb].
  destruct (key r) as [s|]; [|destruct Hb].
  destruct (truthy (Some s)) eqn:E; [|destruct Hb].
  destruct Hb as [<-|[]]. exact E.
Qed.

Lemma wins_In {A} (eqb : A -> A -> bool) x l : wins eqb x l -> In x l.
Proof. intros (_ & before & after & -> & _). apply in_elt. Qed.

Lemma top_winner key pages b :
  wins String.eqb b (names key pages) ->
  top (names key pages) = Some b /\ truthy (Some b) = true.
Proof.
  intro Hw. split.
  - now apply (top_names key pages).
  - eapply names_In_truthy, wins_In, Hw.
Qed.

Lemma top_unobserved key pages :
  names key pages = [] ->
  top (names key pages) = Some EmptyString.
Proof. apply (top_names key pages). Qed.

(** X13. The suggested bank is [None] exactly when no page gave a bank or a
    card name; it is the winning bank name and the winning card name joined
    by a space when both were observed, and the winner of the one that was
    observed otherwise. It is never the empty string. *)
Theorem suggested_bank_composition pages :
  (suggested_bank pages = None <->
   bank_names pages = [] /\ card_names pages = []) /\
  (forall b c,
     wins String.eqb b (bank_names pages) ->
     wins String.eqb c (card_names pages) ->
     suggested_bank pages = Some (b ++ " " ++ c)%string) /\
  (forall b,
     wins String.eqb b (bank_names pages) -> card_names pages = [] ->
     suggested_bank pages = Some b) /\
  (forall c,
     bank_names pages = [] -> wins String.eqb c (card_names pages) ->
     suggested_bank pages = Some c) /\
  suggested_bank pages <> Some EmptyString.
Proof.
  assert (Hboth : forall b c,
            wins String.eqb b (bank_names pages) ->
            wins String.eqb c (card_names pages) ->
            suggested_bank pages = Some (b ++ " " ++ c)%string).
  { intros b c Hb Hc. unfold suggested_bank, tops.
    pose proof (wins_In _ _ _ Hb) as Ib. pose proof (wins_In _ _ _ Hc) as Ic.
    destruct (top_winner p_bank_name pages b Hb) as [Eb Tb].
    destruct (top_winner p_card_name pages c Hc) as [Ec Tc].
    fold bank_names in Eb. fold card_names in Ec.
    destruct (bank_names pages) as [|b0 bs] eqn:E1; [destruct Ib|].
    destruct (card_names pages) as [|c0 cs] eqn:E2; [destruct Ic|].
    rewrite Eb, Ec, Tb, Tc. reflexivity. }
  assert (Hbank : forall b,
            wins String.eqb b (bank_names pages) -> card_names pages = [] ->
            suggested_bank pages = Some b).
  { intros b Hb Hc. unfold suggested_bank, tops.
    pose proof (wins_In _ _ _ Hb) as Ib.
    destruct (top_winner p_bank_name pages b Hb) as [Eb Tb].
    pose proof (top_unobserved p_card_name pages Hc) as Ec.
    fold bank_names in Eb. fold card_names in Ec. rewrite Hc in Ec |- *.
    destruct (bank_names pages) as [|b0 bs] eqn:E1; [destruct Ib|].
    rewrite Eb, Ec. clear -Tb.
    destruct b; [discriminate Tb|reflexivity]. }
  assert (Hcard : forall c,
            bank_names pages = [] -> wins String.eqb c (card_names pages) ->
            suggested_bank pages = Some c).
  { intros c Hb Hc. unfold suggested_bank, tops.
    pose proof (wins_In _ _ _ Hc) as Ic.
    destruct (top_winner p_card_name pages c Hc) as [Ec Tc].
    pose proof (top_unobserved p_bank_name pages Hb) as Eb.
    fold bank_names in Eb. fold card_names in Ec. rewrite Hb in Eb |- *.
    destruct (card_names pages) as [|c0 cs] eqn:E2; [destruct Ic|].
    rewrite Eb, Ec. clear -Tc.
    destruct c; [discriminate Tc|reflexivity]. }
  assert (Hcases :
            (bank_names pages = [] /\ card_names pages = [] /\
             suggested_bank pages = None) \/
            (exists s, suggested_bank pages = Some s /\ s <> EmptyString /\
                       (bank_names pages <> [] \/ card_names pages <> []))).
  { destruct (bank_names pages) as [|b0 bs] eqn:E1;
      destruct (card_names pages) as [|c0 cs] eqn:E2.
    - left. repeat split. unfold suggested_bank, tops. now rewrite E1, E2.
    - right.
      destruct (vote_wins _ String.eqb_eq (c0 :: cs)) as (c & _ & Hc);
        [discriminate|].
      exists c. split; [now apply Hcard|].
      split; [|right; discriminate].
      assert (T : truthy (Some c) = true).
      { apply (names_In_truthy p_card_name pages). fold card_names.
        rewrite E2. eapply wins_In, Hc. }
      intros ->. discriminate.
    - right.
      destruct (vote_wins _ String.eqb_eq (b0 :: bs)) as (b & _ & Hb);
        [discriminate|].
      exists b. split; [now apply Hbank|].
      split; [|left; discriminate].
      assert (T : truthy (Some b) = true).
      { apply (names_In_truthy p_bank_name pages). fold bank_names.
        rewrite E1. eapply wins_In, Hb. }
      intros ->. discriminate.
    - right.
      destruct (vote_wins _ String.eqb_eq (b0 :: bs)) as (b & _ & Hb);
        [discriminate|].
      destruct (vote_wins _ String.eqb_eq (c0 :: cs)) as (c & _ & Hc);
        [discriminate|].
      exists (b ++ " " ++ c)%string. split; [now apply Hboth|].
      split; [apply append_nonempty|left; discriminate]. }
  split; [|split; [|split; [|split]]]; try assumption.
  - destruct Hcases as [(Hb & Hc & E)|(s & E & _ & Hne)].
    + split; auto.
    + rewrite E. split; [discriminate|].
      intros [Hb Hc]. destruct Hne; contradiction.
  - destruct Hcases as [(_ & _ & E)|(s & E & Hs & _)]; rewrite E.
    + discriminate.
    + intros [= ->]. contradiction.
Qed.

Lemma suggested_bank_composition_witness :
  let pages := [Sample.page None (Some "KBank"%string) None;
                Sample.page None None (Some "Visa Platinum"%string)] in
  suggested_bank pages = Some "KBank Visa Platinum"%string.
Proof.
  intro pages.
  destruct (suggested_bank_composition pages) as (_ & H & _).
  apply (H "KBank" "Visa Platinum")%string.
  - apply (vote_iff _ String.eqb_eq). reflexivity.
  - apply (vote_iff _ String.eqb_eq). reflexivity.
Defined.

(** ** The analyse button *)

Section AnalyseFacts.

Variable compute_file_hash : string -> string.
Variable process_uploaded_file : string -> string -> string -> Upload.outcome.
Variable db : database.
Variable pdf_password : string.

Local Abbreviation analyse_file :=
  (Upload.analyse_file compute_file_hash process_uploaded_file db pdf_password).

(** The three ways one pass of the loop ends: the file is a duplicate, it
    is staged, or its processing raised. *)
Lemma analyse_file_cases a f :
  (exists dup,
     fst (find_duplicate_statement db (compute_file_hash (Upload.raw f)))
       = Some dup /\
     analyse_file a f
       = Upload.with_error a (Upload.AlreadyImported (Upload.name f) dup)) \/
  (fst (find_duplicate_statement db (compute_file_hash (Upload.raw f))) = None /\
   Upload.filenames (analyse_file a f)
     = Upload.filenames a ++ [Upload.name f] /\
   Upload.file_hashes (analyse_file a f)
     = Upload.file_hashes a ++ [compute_file_hash (Upload.raw f)] /\
   Upload.errors (analyse_file a f) = Upload.errors a) \/
  (fst (find_duplicate_statement db (compute_file_hash (Upload.raw f))) = None /\
   exists e, analyse_file a f = Upload.with_error a e).
Proof.
  unfold Upload.analyse_file.
  destruct (fst (find_duplicate_statement db
                   (compute_file_hash (Upload.raw f)))) as [dup|].
  - left. exists dup. split; reflexivity.
  - destruct (process_uploaded_file _ _ _); [right; left|..];
      try (right; right; split; [reflexivity|eexists; reflexivity]).
    repeat split; reflexivity.
Qed.

Lemma collect_lengths files a :
  List.length (Upload.filenames a) = List.length (Upload.file_hashes a) ->
  let a' := fold_left analyse_file files a in
  List.length (Upload.filenames a') = List.length (Upload.file_hashes a') /\
  (List.length (Upload.errors a') + List.length (Upload.file_hashes a')
   = List.length (Upload.errors a) + List.length (Upload.file_hashes a)
     + List.length files)%nat.
Proof.
  revert a. induction files as [|f files IH]; intros a Ha; simpl.
  - split; [assumption|lia].
  - destruct (analyse_file_cases a f)
      as [(dup & _ & E)|[(_ & E1 & E2 & E3)|(_ & e & E)]].
    + destruct (IH (analyse_file a f)) as [H1 H2].
      { rewrite E. exact Ha. }
      split; [exact H1|]. rewrite H2, E. simpl. rewrite length_app. simpl. lia.
    + destruct (IH (analyse_file a f)) as [H1 H2].
      { rewrite E1, E2, !length_app. simpl. lia. }
      split; [exact H1|]. rewrite H2, E2, E3, length_app. simpl. lia.
    + destruct (IH (analyse_file a f)) as [H1 H2].
      { rewrite E. exact Ha. }
      split; [exact H1|]. rewrite H2, E. simpl. rewrite length_app. simpl. lia.
Qed.

Lemma collect_hashes files a h :
  In h (Upload.file_hashes (fold_left analyse_file files a)) ->
  In h (Upload.file_hashes a) \/
  (fst (find_duplicate_statement db h) = None /\
   exists f, In f files /\ h = compute_file_hash (Upload.raw f)).
Proof.
  revert a. induction files as [|f files IH]; intros a Hh; simpl in Hh.
  - now left.
  - apply IH in Hh as [Hh|(Hn & f' & Hf' & E)].
    + destruct (analyse_file_cases a f)
        as [(dup & _ & E)|[(Hn & _ & E2 & _)|(_ & e & E)]].
      * rewrite E in Hh. now left.
      * rewrite E2 in Hh. apply in_app_or in Hh as [Hh|[<-|[]]]; [now left|].
        right. split; [assumption|]. exists f. split; [now left|reflexivity].
      * rewrite E in Hh. now left.
    + right. split; [assumption|]. exists f'. split; [now right|assumption].
Qed.

Lemma collect_errors_kept files a e :
  In e (Upload.errors a) ->
  In e (Upload.errors (fold_left analyse_file files a)).
Proof.
  revert a. induction files as [|f files IH]; intros a He; simpl;
    [assumption|].
  apply IH.
  destruct (analyse_file_cases a f)
    as [(dup & _ & E)|[(_ & _ & _ & E3)|(_ & e' & E)]].
  - rewrite E. simpl. apply in_or_app. now left.
  - now rewrite E3.
  - rewrite E. simpl. apply in_or_app. now left.
Qed.

Lemma collect_duplicates files a f dup :
  In f files ->
  fst (find_duplicate_statement db (compute_file_hash (Upload.raw f)))
    = Some dup ->
  In (Upload.AlreadyImported (Upload.name f) dup)
     (Upload.errors (fold_left analyse_file files a)).
Proof.
  revert a. induction files as [|f' files IH]; intros a Hf Hdup;
    [destruct Hf|].
  simpl. destruct Hf as [->|Hf]; [|now apply IH].
  apply collect_errors_kept. unfold Upload.analyse_file. rewrite Hdup.
  simpl. apply in_or_app. right. now left.
Qed.

End AnalyseFacts.

(** X14. When the analysis stages a batch, the batch has rows, one
    fingerprint is staged per staged file name, every uploaded file is
    either staged or reported as an error, no staged fingerprint is one
    [find_duplicate_statement] finds in the database, and every uploaded
    file whose fingerprint is found is reported as already imported. *)
Theorem analyse_stages_new_files hash process db bank pdf_password uploaded
    rows p errs detected :
  Upload.analyse hash process db bank pdf_password uploaded
    = Upload.Staged rows p errs detected ->
  rows <> [] /\
  exists hs,
    pending_file_hashes p = Some hs /\
    List.length (pending_files p) = List.length hs /\
    (List.length errs + List.length hs = List.length uploaded)%nat /\
    (forall h, In h hs ->
       fst (find_duplicate_statement db h) = None /\
       exists f, In f uploaded /\ h = hash (Upload.raw f)) /\
    (forall f dup, In f uploaded ->
       fst (find_duplicate_statement db (hash (Upload.raw f))) = Some dup ->
       In (Upload.AlreadyImported (Upload.name f) dup) errs).
Proof.
  unfold Upload.analyse.
  set (a := Upload.collect hash process db pdf_password uploaded).
  destruct (Upload.all_txns a) as [|t ts] eqn:Et; [discriminate|].
  intros [= <- <- <- _]. split; [discriminate|].
  exists (Upload.file_hashes a). cbn [pending_file_hashes pending_files].
  destruct (collect_lengths hash process db pdf_password uploaded
              Upload.nothing eq_refl) as [H1 H2].
  fold (Upload.collect hash process db pdf_password uploaded) in H1, H2.
  fold a in H1, H2. simpl in H2.
  split; [reflexivity|]. split; [assumption|]. split; [assumption|]. split.
  - intros h Hh.
    apply (collect_hashes hash process db pdf_password uploaded Upload.nothing)
      in Hh as [[]|H]. exact H.
  - intros f dup Hf Hdup.
    now apply (collect_duplicates hash process db pdf_password uploaded
                 Upload.nothing).
Qed.

Lemma analyse_stages_new_files_witness :
  exists hs,
    hs = ["ff66"%string] /\
    (forall h, In h hs ->
       fst (find_duplicate_statement Sample.db_saved h) = None /\
       exists f, In f [Sample.jan_file; Sample.feb_file] /\
                 h = Sample.sample_hash (Upload.raw f)).
Proof.
  destruct (analyse_stages_new_files Sample.sample_hash Sample.sample_process
              Sample.db_saved "" "" [Sample.jan_file; Sample.feb_file]
              [Sample.candidate_tx "2026-02-02" "GRAB" (90 # 1)]
              {| pending_files := ["feb.png"%string];
                 pending_cutoff_day := None;
                 pending_file_hashes := Some ["ff66"%string] |}
              [Upload.AlreadyImported "jan.PDF" (project
                 (new_statement Sample.now "KTB Visa" ["jan.pdf"%string]
                    Sample.batch (Some 20%Z) (Some ["aa11"%string]) Db.empty))]
              (Some "SCB"%string))
    as (_ & hs & Ehs & _ & _ & H & _).
  - reflexivity.
  - injection Ehs as <-. exists ["ff66"%string]. split; [reflexivity|exact H].
Defined.

Lemma staged_hashes hash process db bank pdf_password uploaded rows p errs
    detected hs h :
  Upload.analyse hash process db bank pdf_password uploaded
    = Upload.Staged rows p errs detected ->
  pending_file_hashes p = Some hs -> In h hs ->
  fst (find_duplicate_statement db h) = None /\
  exists f, In f uploaded /\ h = hash (Upload.raw f).
Proof.
  unfold Upload.analyse.
  destruct (Upload.all_txns _) as [|t ts]; [discriminate|].
  intros [= _ <- _ _]. cbn [pending_file_hashes]. intros [= <-] Hh.
  apply (collect_hashes hash process db pdf_password uploaded Upload.nothing)
    in Hh as [[]|H]. exact H.
Qed.

Lemma find_duplicate_saved now bank filenames txs cutoff_day hs db h :
  Forall clean hs -> In h hs -> h <> EmptyString ->
  exists d,
    fst (find_duplicate_statement
           (saved now bank filenames txs cutoff_day (Some hs) db) h) = Some d.
Proof.
  intros Hclean Hin Hne.
  rewrite (find_duplicate_statement_find _ _ Hne).
  cbn [saved statements]. rewrite find_app.
  destruct (find (contains h) (statements db)); [eexists; reflexivity|].
  simpl find.
  assert (Hc : contains h (new_statement now bank filenames txs cutoff_day
                                         (Some hs) db) = true).
  { unfold contains. cbn [new_statement s_file_hash].
    rewrite stored_hash_str; [|intros ->; destruct Hin|assumption].
    apply existsb_exists. exists h. split; [assumption|].
    apply String.eqb_refl. }
  rewrite Hc. eexists. reflexivity.
Qed.

Lemma do_save_done f now st p bank final db st' db' :
  do_save f now st p bank final db = (st', db', None) ->
  st' = Committed (List.length final) bank /\
  db' = saved now bank (pending_files p) final (pending_cutoff_day p)
              (pending_file_hashes p) db.
Proof.
  unfold do_save. rewrite save_transactions_cases.
  destruct (accepts f (S (List.length final))); [|discriminate].
  intros [= <- <-]. split; reflexivity.
Qed.

(** X15. Provided fingerprints are non-empty and free of commas and of
    surrounding white space, as hexadecimal digests are: once a staged
    batch has been saved, a file with the bytes of any file of that batch
    is reported as already imported by the next analysis, and neither its
    name, its fingerprint nor any row of it is staged. *)
Theorem saved_file_is_rejected hash process db bank pdf_password uploaded
    rows p errs detected f now st bank' final st' db' :
  (forall r, clean (hash r) /\ hash r <> EmptyString) ->
  Upload.analyse hash process db bank pdf_password uploaded
    = Upload.Staged rows p errs detected ->
  do_save f now st p bank' final db = (st', db', None) ->
  forall hs file,
    pending_file_hashes p = Some hs -> In (hash (Upload.raw file)) hs ->
    forall process' pdf_password' a,
    exists dup,
      Upload.analyse_file hash process' db' pdf_password' a file
      = Upload.with_error a (Upload.AlreadyImported (Upload.name file) dup).
Proof.
  intros Hhash Han Hsave hs file Ehs Hin process' pw' a.
  apply do_save_done in Hsave as [_ ->]. rewrite Ehs.
  destruct (find_duplicate_saved now bank' (pending_files p) final
              (pending_cutoff_day p) hs db (hash (Upload.raw file)))
    as (d & Hd).
  - apply Forall_forall. intros h Hh.
    destruct (staged_hashes hash process db bank pdf_password uploaded rows p
                errs detected hs h Han Ehs Hh) as (_ & f0 & _ & ->).
    apply Hhash.
  - assumption.
  - apply Hhash.
  - exists d. unfold Upload.analyse_file. now rewrite Hd.
Qed.

Lemma saved_file_is_rejected_witness :
  exists dup,
    Upload.analyse_file Sample.sample_hash Sample.sample_process
      (saved Sample.now "SCB" ["feb.png"%string]
             [Sample.candidate_tx "2026-02-02" "GRAB" (90 # 1)] None
             (Some ["ff66"%string]) Sample.db_saved)
      "" Upload.nothing
      {| Upload.name := "copy of feb.png"; Upload.raw := "PNG-feb" |}
    = Upload.with_error Upload.nothing
        (Upload.AlreadyImported "copy of feb.png" dup).
Proof.
  apply (saved_file_is_rejected Sample.sample_hash Sample.sample_process
           Sample.db_saved "" "" [Sample.jan_file; Sample.feb_file]
           [Sample.candidate_tx "2026-02-02" "GRAB" (90 # 1)]
           {| pending_files := ["feb.png"%string];
              pending_cutoff_day := None;
              pending_file_hashes := Some ["ff66"%string] |}
           [Upload.AlreadyImported "jan.PDF" (project
              (new_statement Sample.now "KTB Visa" ["jan.pdf"%string]
                 Sample.batch (Some 20%Z) (Some ["aa11"%string]) Db.empty))]
           (Some "SCB"%string) None Sample.now
           (Review {| pending_files := ["feb.png"%string];
                      pending_cutoff_day := None;
                      pending_file_hashes := Some ["ff66"%string] |})
           "SCB" [Sample.candidate_tx "2026-02-02" "GRAB" (90 # 1)]
           (Committed 1 "SCB")
           (saved Sample.now "SCB" ["feb.png"%string]
                  [Sample.candidate_tx "2026-02-02" "GRAB" (90 # 1)] None
                  (Some ["ff66"%string]) Sample.db_saved)
           ) with (hs := ["ff66"%string]).
  - intro r. unfold Sample.sample_hash.
    destruct (String.eqb r "%PDF-jan"); repeat split; discriminate.
  - reflexivity.
  - reflexivity.
  - reflexivity.
  - left. reflexivity.
Defined.

(** ** The rows handed to the save button *)








(** ** Labels *)

Lemma fold_left_invariant {A B} (f : A -> B -> A) (P : A -> Prop) l a :
  (forall acc x, In x l -> P acc -> P (f acc x)) -> P a ->
  P (fold_left f l a).
Proof.
  revert a. induction l as [|x l IH]; intros a Hstep Ha; simpl; [assumption|].
  apply IH.
  - intros acc y Hy. apply Hstep. now right.
  - apply Hstep; [now left|assumption].
Qed.

Lemma combine_seq_In {A} (l : list A) s i x :
  In (i, x) (combine (seq s (List.length l)) l) ->
  (s <= i)%nat /\ nth_error l (i - s) = Some x.
Proof.
  revert s. induction l as [|a l IH]; intros s H; simpl in H; [destruct H|].
  destruct H as [H|H].
  - injection H as <- <-. split; [lia|]. now rewrite Nat.sub_diag.
  - apply IH in H as [Hle Hn]. split; [lia|].
    replace (i - s)%nat with (S (i - S s)) by lia. exact Hn.
Qed.

Lemma enumerate_In {A} (l : list A) i x :
  In (i, x) (Labels.enumerate l) -> nth_error l i = Some x.
Proof.
  intro H. apply combine_seq_In in H as [_ H]. now rewrite Nat.sub_0_r in H.
Qed.

Lemma nth_error_combine {A B} (l1 : list A) (l2 : list B) i a b :
  nth_error (combine l1 l2) i = Some (a, b) ->
  nth_error l1 i = Some a /\ nth_error l2 i = Some b.
Proof.
  revert l2 i. induction l1 as [|x l1 IH]; intros [|y l2] [|i] H; simpl in H;
    try discriminate.
  - injection H as <- <-. split; reflexivity.
  - simpl. now apply IH.
Qed.

Lemma setitem_spec {A} (l l' : list A) idx v :
  Labels.setitem l idx v = Some l' ->
  List.length l' = List.length l /\
  forall j, nth_error l' j = if Nat.eqb j idx then Some v else nth_error l j.
Proof.
  revert l' idx. induction l as [|x l IH]; intros l' [|idx] H; simpl in H;
    try discriminate.
  - injection H as <-. split; [reflexivity|]. now intros [|j].
  - destruct (Labels.setitem l idx v) as [r|] eqn:E; [|discriminate].
    injection H as <-. destruct (IH r idx E) as [Hl Hn].
    split; [simpl; now rewrite Hl|]. intros [|j]; [reflexivity|]. apply Hn.
Qed.

Lemma nth_error_repeat_None {A} n i (x : option A) :
  nth_error (repeat None n) i = Some x -> x = None.
Proof.
  intro H. apply nth_error_In, repeat_spec in H. exact H.
Qed.

Lemma mem_In x l : Labels.mem x l = true <-> In x l.
Proof.
  unfold Labels.mem. rewrite existsb_exists. split.
  - intros (y & Hy & E). apply String.eqb_eq in E. now subst.
  - intro H. exists x. split; [assumption|apply String.eqb_refl].
Qed.

Section SubcategorizeFacts.

Variable ask_subcategories :
  string -> list string -> list (option string) -> list Labels.example ->
  option (list (option string)).
Variable categories : list (option string).

Lemma append_to_ok c item groups :
  Labels.has_subcategories (Some c) = true ->
  nth_error categories (fst item) = Some (Some c) ->
  Forall (Labels.group_ok categories) groups ->
  Forall (Labels.group_ok categories) (Labels.append_to c item groups).
Proof.
  intros Hc Hi. induction 1 as [|[c' items] rest [H1 H2] Hrest IH]; simpl.
  - repeat constructor; [assumption|].
    intros i d [E|[]]. subst item. exact Hi.
  - destruct (String.eqb c' c) eqn:E.
    + apply String.eqb_eq in E. subst c'. constructor; [|assumption].
      split; [assumption|]. simpl. intros i d Hin.
      apply in_app_or in Hin as [Hin|[E'|[]]]; [now apply (H2 i d)|].
      subst item. exact Hi.
    + constructor; [split; assumption|exact IH].
Qed.

Lemma groups_of_ok descriptions :
  Forall (Labels.group_ok categories) (Labels.groups_of descriptions categories).
Proof.
  unfold Labels.groups_of. apply fold_left_invariant; [|constructor].
  intros acc [i [desc cat]] Hin Hacc. simpl.
  destruct cat as [c|]; [|assumption].
  destruct (Labels.has_subcategories (Some c)) eqn:Hc; [|assumption].
  apply append_to_ok; [assumption| |assumption].
  simpl. apply enumerate_In, nth_error_combine in Hin as [_ H]. exact H.
Qed.

Lemma assign_ok n allowed cat pairs results :
  Labels.getitem cat Labels.SUBCATEGORIES = Some allowed ->
  (forall idx subcat, In (idx, subcat) pairs ->
     nth_error categories idx = Some (Some cat)) ->
  Labels.results_ok categories n results -> Labels.results_ok categories n (Labels.assign results pairs allowed).
Proof.
  intros Hget. revert results.
  induction pairs as [|[idx subcat] pairs IH]; intros results Hp Hr;
    cbn [Labels.assign]; [assumption|].
  assert (Hp' : forall i s, In (i, s) pairs ->
                  nth_error categories i = Some (Some cat)).
  { intros i s Hin. apply (Hp i s). now right. }
  destruct subcat as [sc|]; [|now apply IH].
  destruct (truthy (Some sc) && Labels.mem sc allowed) eqn:E; [|now apply IH].
  destruct (Labels.setitem results idx (Some sc)) as [results'|] eqn:Es;
    [|assumption].
  apply IH; [assumption|].
  apply andb_true_iff in E as [Et Em].
  destruct (setitem_spec _ _ _ _ Es) as [Hl Hn]. destruct Hr as [Hlen Hall].
  split; [congruence|]. intros i s Hi. rewrite Hn in Hi.
  destruct (Nat.eqb i idx) eqn:Ei; [|now apply Hall].
  apply Nat.eqb_eq in Ei. subst i. injection Hi as <-.
  exists cat, allowed. split; [apply (Hp idx (Some sc)); now left|].
  split; [assumption|]. split; [now apply mem_In|].
  simpl in Et. apply negb_true_iff in Et. now apply String.eqb_neq.
Qed.

Lemma group_pass_ok n examples g results :
  Labels.group_ok categories g -> Labels.results_ok categories n results ->
  exists results',
    Labels.group_pass ask_subcategories examples (Some results) g
      = Some results' /\ Labels.results_ok categories n results'.
Proof.
  intros [Hc Hi] Hr. destruct g as [cat items]. cbn [fst snd] in Hc, Hi.
  unfold Labels.group_pass.
  destruct items as [|it items]; [eauto|].
  unfold Labels.has_subcategories in Hc.
  destruct (Labels.getitem cat Labels.SUBCATEGORIES) as [allowed|] eqn:Eg;
    [|discriminate].
  destruct (ask_subcategories _ _ _ _) as [subcats_result|]; [|eauto].
  eexists. split; [reflexivity|].
  apply (assign_ok n allowed cat); [assumption| |assumption].
  intros idx subcat Hin. apply in_combine_l in Hin.
  apply in_map_iff in Hin as ([i d] & E & Hin). simpl in E. subst i.
  now apply (Hi idx d).
Qed.

Lemma subcategorize_ok descriptions examples :
  exists results,
    Labels.subcategorize ask_subcategories descriptions categories examples
      = Some results /\
    Labels.results_ok categories (List.length descriptions) results.
Proof.
  unfold Labels.subcategorize.
  pose proof (groups_of_ok descriptions) as Hg.
  assert (H0 : Labels.results_ok categories (List.length descriptions)
                 (repeat None (List.length descriptions))).
  { split; [apply repeat_length|].
    intros i sc H. apply nth_error_repeat_None in H. discriminate. }
  revert H0. generalize (repeat (@None string) (List.length descriptions)).
  induction Hg as [|g groups Hgo _ IH]; intros results Hr; cbn [fold_left].
  - eauto.
  - destruct (group_pass_ok (List.length descriptions) examples g results
                Hgo Hr) as (results' & E & Hr').
    rewrite E. now apply IH.
Qed.

End SubcategorizeFacts.

(** X17. [subcategorize] always returns, with one result per description.
    A result that is not [None] stands at a place whose category has
    subcategories, and is one of them and not empty; whatever the
    labelling service answers, no other label gets through. *)
Theorem subcategorize_valid ask descriptions categories examples :
  exists results,
    Labels.subcategorize ask descriptions categories examples = Some results /\
    List.length results = List.length descriptions /\
    forall i sc, nth_error results i = Some (Some sc) ->
      exists cat allowed,
        nth_error categories i = Some (Some cat) /\
        Labels.getitem cat Labels.SUBCATEGORIES = Some allowed /\
        In sc allowed /\ sc <> EmptyString.
Proof.
  destruct (subcategorize_ok ask categories descriptions examples)
    as (results & E & Hl & H).
  exists results. split; [assumption|]. split; [assumption|exact H].
Qed.

Lemma subcategorize_valid_witness :
  exists results,
    Labels.subcategorize Sample.sample_subcategories
      [Some "TMN 7-11"%string; Some "LAZADA"%string]
      [Some "ร้านสะดวกซื้อ"%string; Some "ช้อปปิ้งออนไลน์"%string] []
    = Some results /\
    results = [Some "7-11"%string; None] /\
    exists cat allowed,
      Labels.getitem cat Labels.SUBCATEGORIES = Some allowed /\
      In "7-11"%string allowed.
Proof.
  destruct (subcategorize_valid Sample.sample_subcategories
              [Some "TMN 7-11"%string; Some "LAZADA"%string]
              [Some "ร้านสะดวกซื้อ"%string; Some "ช้อปปิ้งออนไลน์"%string] [])
    as (results & E & _ & H).
  exists results. split; [exact E|].
  assert (Er : results = [Some "7-11"%string; None]).
  { vm_compute in E. now injection E as <-. }
  split; [exact Er|].
  destruct (H 0%nat "7-11"%string) as (cat & allowed & _ & Hg & Hin & _).
  - rewrite Er. reflexivity.
  - exists cat, allowed. split; assumption.
Defined.

Lemma column_nth k expenses col i t :
  Labels.column k expenses = Some col -> nth_error expenses i = Some t ->
  k t <> Missing /\ nth_error col i = Some (Labels.cell_of (k t)).
Proof.
  revert col i. induction expenses as [|t0 rest IH]; intros col i Hc Hn.
  - destruct i; discriminate.
  - simpl in Hc.
    destruct (k t0) eqn:Ek; [discriminate| |];
      destruct (Labels.column k rest) as [l|] eqn:El; try discriminate;
      injection Hc as <-; destruct i as [|i]; simpl in Hn |- *.
    + injection Hn as <-. rewrite Ek. split; [discriminate|reflexivity].
    + now apply IH.
    + injection Hn as <-. rewrite Ek. split; [discriminate|reflexivity].
    + now apply IH.
Qed.

Lemma column_length k expenses col :
  Labels.column k expenses = Some col ->
  List.length col = List.length expenses.
Proof.
  revert col. induction expenses as [|t0 rest IH]; intros col Hc; simpl in Hc.
  - now injection Hc as <-.
  - destruct (k t0); [discriminate| |];
      destruct (Labels.column k rest) as [l|]; try discriminate;
      injection Hc as <-; simpl; now rewrite (IH l).
Qed.

Lemma subcategorized_In rows subcats t :
  List.length subcats = List.length rows ->
  In t (Labels.subcategorized rows subcats) ->
  exists i t0 sc,
    nth_error rows i = Some t0 /\ nth_error subcats i = Some sc /\
    t = Labels.set_subcategory t0 sc.
Proof.
  revert subcats. induction rows as [|t0 rows IH]; intros [|sc subcats] Hl Hin;
    simpl in Hl, Hin; try discriminate; [destruct Hin|].
  destruct Hin as [<-|Hin].
  - exists 0%nat, t0, sc. repeat split.
  - destruct (IH subcats) as (i & t1 & sc1 & H1 & H2 & H3);
      [lia|assumption|].
    exists (S i), t1, sc1. repeat split; assumption.
Qed.

Lemma subcategorized_core rows subcats :
  map Labels.core (Labels.subcategorized rows subcats) = map Labels.core rows /\
  List.length (Labels.subcategorized rows subcats) = List.length rows.
Proof.
  revert subcats. induction rows as [|t rows IH]; intros [|sc subcats]; simpl;
    try (split; reflexivity).
  destruct (IH subcats) as [H1 H2]. now rewrite H1, H2.
Qed.

Lemma categorized_core rows cats :
  map Labels.core (Labels.categorized rows cats) = map Labels.core rows /\
  List.length (Labels.categorized rows cats) = List.length rows.
Proof.
  revert cats. induction rows as [|t rows IH]; intros [|c cats]; simpl;
    try (split; reflexivity).
  destruct (IH cats) as [H1 H2]. now rewrite H1, H2.
Qed.

Lemma checked_category_In c : In (Labels.checked_category c) Labels.CATEGORIES.
Proof.
  unfold Labels.checked_category. destruct c as [x|].
  - destruct (Labels.mem x Labels.CATEGORIES) eqn:E.
    + now apply mem_In.
    + apply mem_In. reflexivity.
  - apply mem_In. reflexivity.
Qed.

Lemma categorized_In rows cats t :
  (List.length rows <= List.length cats)%nat ->
  In t (Labels.categorized rows cats) ->
  exists c, category t = Val c /\ In c Labels.CATEGORIES.
Proof.
  revert cats. induction rows as [|t0 rows IH]; intros [|c cats] Hl Hin;
    simpl in Hl, Hin; try destruct Hin; try lia.
  - subst t. eexists. split; [reflexivity|apply checked_category_In].
  - apply (IH cats); [lia|assumption].
Qed.

Section LabelFacts.

Variable ask_categories :
  list (option string) -> list Labels.example -> option (list (option string)).
Variable ask_subcategories :
  string -> list string -> list (option string) -> list Labels.example ->
  option (list (option string)).

(** Rows whose subcategory was just written by the second block. *)
Lemma second_block_valid descs examples with_cats t :
  List.length descs = List.length with_cats ->
  In t match Labels.column category with_cats with
       | None => map (fun t => Labels.set_subcategory t None) with_cats
       | Some categories =>
           match Labels.subcategorize ask_subcategories descs categories
                                      examples with
           | Some subcats => Labels.subcategorized with_cats subcats
           | None => map (fun t => Labels.set_subcategory t None) with_cats
           end
       end ->
  subcategory t = PyNone \/
  exists c sc allowed,
    category t = Val c /\ subcategory t = Val sc /\
    Labels.getitem c Labels.SUBCATEGORIES = Some allowed /\ In sc allowed.
Proof.
  intros Hlen Hin.
  assert (Hnone : forall l, In t (map (fun t => Labels.set_subcategory t None) l)
                            -> subcategory t = PyNone).
  { intros l H. apply in_map_iff in H as (t0 & <- & _). reflexivity. }
  destruct (Labels.column category with_cats) as [categories|] eqn:Ec;
    [|left; now apply (Hnone with_cats)].
  destruct (subcategorize_ok ask_subcategories categories descs examples)
    as (results & E & Hl & Hok).
  rewrite E in Hin.
  apply subcategorized_In in Hin as (i & t0 & sc & H0 & Hsc & ->);
    [|congruence].
  destruct sc as [x|]; [|now left]. right.
  destruct (Hok i x Hsc) as (cat & allowed & Hcat & Hg & Hx & _).
  destruct (column_nth category with_cats categories i t0 Ec H0) as [_ Hn].
  rewrite Hn in Hcat. injection Hcat as Hcat.
  exists cat, x, allowed. simpl. repeat split; try assumption.
  destruct (category t0); simpl in Hcat; congruence.
Qed.

End LabelFacts.

(** X18. The labelling of [process_uploaded_file] returns as many rows as
    it was given and leaves their dates, description and amount alone.
    Whatever the labelling service answers or however it fails, a row
    comes out with no subcategory or with one that belongs to the
    subcategories of its category; and when the category call failed or
    answered with at least one label per row, every row comes out with a
    category of the fixed list. *)
Theorem label_expenses_valid ask_categories ask_subcategories examples
    expenses out :
  Labels.label_expenses ask_categories ask_subcategories examples expenses
    = Some out ->
  map Labels.core out = map Labels.core expenses /\
  (forall t, In t out ->
     subcategory t = PyNone \/
     exists c sc allowed,
       category t = Val c /\ subcategory t = Val sc /\
       Labels.getitem c Labels.SUBCATEGORIES = Some allowed /\
       In sc allowed) /\
  (forall descs,
     Labels.column description expenses = Some descs ->
     match ask_categories descs examples with
     | Some cats => (List.length expenses <= List.length cats)%nat
     | None => True
     end ->
     forall t, In t out ->
       exists c, category t = Val c /\ In c Labels.CATEGORIES).
Proof.
  unfold Labels.label_expenses.
  destruct expenses as [|e0 es] eqn:Ee.
  { intros [= <-]. repeat split; intros; try contradiction. }
  rewrite <- Ee. clear e0 es Ee.
  destruct (Labels.column description expenses) as [descs|] eqn:Ed;
    [|discriminate].
  set (with_cats := match ask_categories descs examples with
                    | Some cats => Labels.categorized expenses cats
                    | None => map (fun t => Labels.set_category t default_category)
                                  expenses
                    end).
  assert (Hcore : map Labels.core with_cats = map Labels.core expenses /\
                  List.length with_cats = List.length expenses).
  { unfold with_cats. destruct (ask_categories descs examples) as [cats|].
    - apply categorized_core.
    - rewrite map_map, length_map. split; reflexivity. }
  destruct Hcore as [Hcore Hlen].
  intros [= <-]. split; [|split].
  - rewrite <- Hcore.
    destruct (Labels.column category with_cats) as [categories|].
    + destruct (Labels.subcategorize _ _ _ _) as [subcats|].
      * apply subcategorized_core.
      * now rewrite map_map.
    + now rewrite map_map.
  - intros t Ht.
    apply (second_block_valid ask_subcategories descs examples with_cats t);
      [|exact Ht].
    rewrite Hlen. now apply column_length in Ed.
  - intros descs' [= <-] Hcats t Ht.
    assert (Hwc : forall t', In t' with_cats ->
                    exists c, category t' = Val c /\ In c Labels.CATEGORIES).
    { unfold with_cats. intros t' Ht'.
      destruct (ask_categories descs examples) as [cats|].
      - now apply (categorized_In expenses cats).
      - apply in_map_iff in Ht' as (t0 & <- & _).
        exists default_category. split; [reflexivity|].
        apply mem_In. reflexivity. }
    assert (Hsub : forall l t',
              In t' (map (fun t => Labels.set_subcategory t None) l) ->
              exists t0, In t0 l /\ category t' = category t0).
    { intros l t' H. apply in_map_iff in H as (t0 & <- & H). eauto. }
    assert (Hex : exists t0, In t0 with_cats /\ category t = category t0).
    { destruct (Labels.column category with_cats) as [categories|];
        [|now apply Hsub].
      destruct (Labels.subcategorize _ _ _ _) as [subcats|] eqn:Es;
        [|now apply Hsub].
      destruct (subcategorize_ok ask_subcategories categories descs examples)
        as (results & E & Hl & _).
      rewrite Es in E. injection E as <-.
      apply subcategorized_In in Ht as (i & t0 & sc & H0 & _ & ->).
      - exists t0. split; [eapply nth_error_In; eassumption|reflexivity].
      - rewrite Hl, Hlen. now apply column_length in Ed. }
    destruct Hex as (t0 & H0 & ->). now apply Hwc.
Qed.

Lemma label_expenses_valid_witness :
  let expenses := [Sample.candidate_tx "2026-01-15" "TMN 7-11" (150 # 1);
                   Sample.candidate_tx "2026-01-16" "TESCO" (300 # 1);
                   Sample.candidate_tx "2026-01-17" "LAZADA" (990 # 1)] in
  exists out,
    Labels.label_expenses Sample.sample_categories Sample.sample_subcategories
                          [] expenses = Some out /\
    map category out = [Val "ร้านสะดวกซื้อ"%string; Val default_category;
                        Val "ช้อปปิ้งออนไลน์"%string] /\
    map subcategory out = [Val "7-11"%string; PyNone; PyNone] /\
    forall t, In t out -> exists c, category t = Val c /\ In c Labels.CATEGORIES.
Proof.
  intro expenses.
  assert (E : exists out,
            Labels.label_expenses Sample.sample_categories
              Sample.sample_subcategories [] expenses = Some out /\
            map category out = [Val "ร้านสะดวกซื้อ"%string; Val default_category;
                                Val "ช้อปปิ้งออนไลน์"%string] /\
            map subcategory out = [Val "7-11"%string; PyNone; PyNone]).
  { vm_compute. eexists. repeat split. }
  destruct E as (out & E & Hc & Hs). exists out.
  split; [exact E|]. split; [exact Hc|]. split; [exact Hs|].
  destruct (label_expenses_valid Sample.sample_categories
              Sample.sample_subcategories [] expenses out E) as (_ & _ & H).
  apply (H [Some "TMN 7-11"; Some "TESCO"; Some "LAZADA"]%string).
  - reflexivity.
  - simpl. lia.
Defined.

(** ** The sunburst chart *)

Lemma sub_total_sum subs :
  Sunburst.sub_total subs == fold_right Qplus 0 (map snd subs).
Proof.
  unfold Sunburst.sub_total. rewrite fold_left_Qplus. ring.
Qed.

Lemma sub_total_dict_add k a d :
  Sunburst.sub_total (Sunburst.dict_add k a d) == Sunburst.sub_total d + a.
Proof.
  rewrite !sub_total_sum. induction d as [|[k' v] d IH]; simpl.
  - ring.
  - destruct (String.eqb k' k); simpl; [ring|]. rewrite IH. ring.
Qed.















Lemma keys_dict_add x k a d :
  In x (map fst (Sunburst.dict_add k a d)) -> In x (map fst d) \/ x = k.
Proof.
  induction d as [|[k' v] d IH]; simpl.
  - intros [<-|[]]. now right.
  - destruct (String.eqb k' k); simpl; [auto|].
    intros [H|H]; [auto|]. apply IH in H as [H|H]; auto.
Qed.

Lemma NoDup_keys_dict_add k a d :
  NoDup (map fst d) -> NoDup (map fst (Sunburst.dict_add k a d)).
Proof.
  induction d as [|[k' v] d IH]; simpl; intro H.
  - constructor; [intros []|constructor].
  - destruct (String.eqb k' k) eqn:E; simpl; [assumption|].
    inversion H as [|? ? Hnot Hrest]; subst. constructor; [|now apply IH].
    intro Hin. apply keys_dict_add in Hin as [Hin|Hin]; [now apply Hnot|].
    apply String.eqb_neq in E. now apply E.
Qed.

Lemma cat_totals_tally t row :
  Sunburst.cat_totals (Sunburst.tally t row) =
  Sunburst.dict_add
    (match Sunburst.split_once " > " (fst row) with
     | Some (cat, _) => cat
     | None => fst row
     end) (snd row) (Sunburst.cat_totals t).
Proof.
  destruct row as [path a]. unfold Sunburst.tally. simpl.
  now destruct (Sunburst.split_once " > " path) as [[cat sub]|].
Qed.

Lemma cat_totals_fold rows t :
  (NoDup (map fst (Sunburst.cat_totals t)) ->
   NoDup (map fst (Sunburst.cat_totals (fold_left Sunburst.tally rows t)))) /\
  Sunburst.sub_total (Sunburst.cat_totals (fold_left Sunburst.tally rows t))
  == Sunburst.sub_total (Sunburst.cat_totals t)
     + fold_right Qplus 0 (map snd rows).
Proof.
  revert t. induction rows as [|row rows IH]; intro t; simpl.
  - split; [auto|ring].
  - destruct (IH (Sunburst.tally t row)) as [Hnd Hsum]. split.
    + intro H. apply Hnd. rewrite cat_totals_tally.
      now apply NoDup_keys_dict_add.
    + rewrite Hsum, cat_totals_tally, sub_total_dict_add. ring.
Qed.

(** X20. The category nodes of the chart have pairwise distinct ids, and
    their values add up to the sum of the amounts of all the rows, whether
    a row has a subcategory or not. *)
Theorem sunburst_categories_conserve path_df :
  let roots := map Sunburst.category_node
                   (Sunburst.cat_totals (Sunburst.tallied path_df)) in
  NoDup (map Sunburst.id roots) /\
  Sunburst.values_sum roots == fold_right Qplus 0 (map snd path_df).
Proof.
  cbv zeta. unfold Sunburst.tallied.
  destruct (cat_totals_fold path_df
              {| Sunburst.cat_totals := []; Sunburst.cat_subs := [] |})
    as [Hnd Hsum].
  cbn [Sunburst.cat_totals] in Hnd, Hsum. split.
  - rewrite map_map.
    rewrite (map_ext _ fst); [apply Hnd; constructor|].
    now intros [cat total].
  - change (Sunburst.sub_total []) with 0 in Hsum.
    rewrite <- (Qplus_0_l (fold_right _ _ (map snd path_df))), <- Hsum.
    rewrite sub_total_sum. unfold Sunburst.values_sum. clear Hnd Hsum.
    induction (Sunburst.cat_totals _) as [|[cat total] l IH]; simpl;
      [reflexivity|].
    rewrite IH. reflexivity.
Qed.
